(** * netcalc: an IPv4 subnet calculator (netcalc.go)

    A shallow embedding of the calculator's core: [parseCIDR], [calculate],
    [incrementIP], [decrementIP] and [calculateTotalHosts], together with the
    functions of Go's standard library they call ([strconv.Atoi],
    [net.ParseCIDR], [net.IP.To4], [net.IPMask.Size], [net.IP.String],
    [fmt.Sprintf] with the verbs the program uses).

    Conventions.
    - A Go [byte] is a [Z] between 0 and 255; arithmetic on bytes wraps
      modulo 256 ([wrap8]).  Go's [int] is taken 64 bits wide.
    - A Go [string] is a [string]: a sequence of 8-bit characters.
    - [net.IP] and [net.IPMask] are byte slices: [list Z]; the nil slice is
      the empty list.
    - A Go function returning [(T, error)] returns a [result T]. *)

From Stdlib Require Import ZArith Lia Bool Ascii String.
From stdpp Require Import base list.

Local Open Scope string_scope.
Local Open Scope Z_scope.

(** ** Results and result items *)

Inductive result (A : Type) : Type :=
| Ok (a : A)
| Err (msg : string).
Arguments Ok {A} a.
Arguments Err {A} msg.

Record ResultItem : Type := mkItem { Name : string; Value : string }.

(** ** Bytes, machine integers and characters *)

Definition wrap8 (x : Z) : Z := x mod 256.
Arguments wrap8 : simpl never.
Definition uint32 (x : Z) : Z := x mod 2 ^ 32.
Definition uint64 (x : Z) : Z := x mod 2 ^ 64.
Definition minInt : Z := - 2 ^ 63.
Definition maxInt : Z := 2 ^ 63 - 1.

(** [^b] on a byte. *)
Definition not8 (b : Z) : Z := Z.lxor b 255.

Definition isByte (b : Z) : Prop := 0 <= b < 256.

Definition code (c : ascii) : Z := Z.of_N (N_of_ascii c).
Definition char (n : Z) : ascii := ascii_of_N (Z.to_N n).

Definition isDigit (c : ascii) : bool := (48 <=? code c) && (code c <=? 57).

Definition IP : Type := list Z.
Definition IPMask : Type := list Z.

Definition IPv4len : nat := 4.
Definition IPv6len : nat := 16.

(** ** incrementIP and decrementIP

    The loops run [i] from [len(ip)-1] down to 0; [incrementIP_loop n ip]
    is the loop with [n] indices left, so that the index at hand is [n-1]. *)

Fixpoint incrementIP_loop (n : nat) (ip : IP) : IP :=
  match n with
  | O => ip
  | S i =>
      let ip' := <[i := wrap8 (ip !!! i + 1)]> ip in
      if negb (ip' !!! i =? 0) then ip' else incrementIP_loop i ip'
  end.

Definition incrementIP (ip : IP) : IP := incrementIP_loop (length ip) ip.

Fixpoint decrementIP_loop (n : nat) (ip : IP) : IP :=
  match n with
  | O => ip
  | S i =>
      let ip' := <[i := wrap8 (ip !!! i - 1)]> ip in
      if negb (ip' !!! i =? 255) then ip' else decrementIP_loop i ip'
  end.

Definition decrementIP (ip : IP) : IP := decrementIP_loop (length ip) ip.

(** ** calculateTotalHosts

    [bitmask] ranges over Go's [int]; the untyped constant [1] of the shift
    takes the type [uint64] of the conversion around it, so the shift is a
    64-bit one.  For the values [calculate] passes (the size of a mask,
    between 0 and 128) no [int] operation overflows. *)

Definition calculateTotalHosts (bitmask : Z) : Z :=
  if 31 <=? bitmask then uint64 (32 - bitmask + 1)
  else uint64 (uint64 (Z.shiftl 1 (32 - bitmask)) - 2).

(** The value of a byte slice read as a big-endian unsigned integer. *)
Definition bigEndian (ip : list Z) : Z :=
  fold_left (fun acc b => acc * 256 + b) ip 0.

(** ** Strings

    The functions of package [strings] and the slicing the program and the
    library perform.  [Split] is the case of a one-byte separator, the only
    one the program uses. *)

Fixpoint IndexByteString (s : string) (c : ascii) : option nat :=
  match s with
  | EmptyString => None
  | String x r =>
      if Ascii.eqb x c then Some O
      else match IndexByteString r c with
           | Some i => Some (S i)
           | None => None
           end
  end.

(** [s[:n]] and [s[n:]]. *)
Fixpoint sliceTo (n : nat) (s : string) : string :=
  match n, s with
  | S k, String x r => String x (sliceTo k r)
  | _, _ => EmptyString
  end.

Fixpoint sliceFrom (n : nat) (s : string) : string :=
  match n, s with
  | S k, String _ r => sliceFrom k r
  | _, _ => s
  end.

Fixpoint HasPrefix (s prefix : string) : bool :=
  match prefix, s with
  | EmptyString, _ => true
  | String p ps, String x r => Ascii.eqb x p && HasPrefix r ps
  | String _ _, EmptyString => false
  end.

Fixpoint Contains (s substr : string) : bool :=
  HasPrefix s substr ||
  match s with
  | EmptyString => false
  | String _ r => Contains r substr
  end.

Fixpoint Split_from (s : string) (sep : ascii) (cur : string) : list string :=
  match s with
  | EmptyString => [cur]
  | String x r =>
      if Ascii.eqb x sep then cur :: Split_from r sep EmptyString
      else Split_from r sep (cur ++ String x EmptyString)
  end.

Definition Split (s : string) (sep : ascii) : list string :=
  Split_from s sep EmptyString.

(** ** fmt: the verb [%d] *)

Fixpoint formatDigits (fuel : nat) (n : Z) (acc : string) : string :=
  match fuel with
  | O => acc
  | S f =>
      let acc' := String (char (48 + n mod 10)) acc in
      if n / 10 =? 0 then acc' else formatDigits f (n / 10) acc'
  end.

(** [fmt.Sprintf("%d", n)] for an [int] or a [uint64]: at most 20 digits. *)
Definition FormatInt (n : Z) : string :=
  if n <? 0 then String "-" (formatDigits 20 (- n) EmptyString)
  else formatDigits 20 n EmptyString.

(** ** strconv.Atoi

    An optional sign, then one or more decimal digits, nothing else; a value
    outside [int] is an error.  [None] is a non-nil error. *)

Fixpoint digitsValue (s : string) (acc : Z) : option Z :=
  match s with
  | EmptyString => Some acc
  | String c r =>
      if isDigit c then digitsValue r (acc * 10 + (code c - 48)) else None
  end.

Definition Atoi (s : string) : option Z :=
  match s with
  | EmptyString => None
  | String c r =>
      let neg := Ascii.eqb c "-" in
      let body := if neg || Ascii.eqb c "+" then r else s in
      match body with
      | EmptyString => None
      | String _ _ =>
          match digitsValue body 0 with
          | None => None
          | Some n =>
              let v := if neg then - n else n in
              if (minInt <=? v) && (v <=? maxInt) then Some v else None
          end
      end
  end.

(** ** Package net: parsing

    [net.ParseCIDR] as the library has it now: the address is read by
    [netip.ParseAddr] and the prefix length by [dtoi].

    [dtoi] reads a decimal prefix of [s]: the value, the number of bytes
    consumed, and whether it is a number below [big]. *)

Definition big : Z := 16777215.

Fixpoint dtoi_loop (s : string) (n : Z) (i : nat) : Z * nat * bool :=
  match s with
  | EmptyString => if (i =? 0)%nat then (0, O, false) else (n, i, true)
  | String c r =>
      if isDigit c then
        let n' := n * 10 + (code c - 48) in
        if big <=? n' then (big, i, false) else dtoi_loop r n' (S i)
      else if (i =? 0)%nat then (0, O, false) else (n, i, true)
  end.

Definition dtoi (s : string) : Z * nat * bool := dtoi_loop s 0 O.

(** [netip.parseIPv4Fields] on the whole of [s]: [atStart] says that the
    byte at hand is the first one or follows a dot, [fields] is the
    four-byte destination. *)
Fixpoint parseIPv4Fields_loop (s : string) (atStart : bool)
    (val : Z) (pos : nat) (digLen : Z) (fields : list Z) : option (list Z) :=
  match s with
  | EmptyString =>
      if (pos <? 3)%nat then None else Some (<[3%nat := wrap8 val]> fields)
  | String c r =>
      if isDigit c then
        if (digLen =? 1) && (val =? 0) then None
        else
          let val' := val * 10 + (code c - 48) in
          if 255 <? val' then None
          else parseIPv4Fields_loop r false val' pos (digLen + 1) fields
      else if Ascii.eqb c "." then
        if atStart || (match r with EmptyString => true | _ => false end)
        then None
        else if (pos =? 3)%nat then None
        else parseIPv4Fields_loop r true 0 (S pos) 0
               (<[pos := wrap8 val]> fields)
      else None
  end.

Definition parseIPv4Fields (s : string) (fields : list Z) : option (list Z) :=
  parseIPv4Fields_loop s true 0 O 0 fields.

Definition parseIPv4 (s : string) : option (list Z) :=
  parseIPv4Fields s [0; 0; 0; 0].

(** [netip.Addr]: four bytes, or sixteen bytes and a zone. *)
Inductive Addr : Type :=
| Addr4 (b : list Z)
| Addr6 (b : list Z) (zone : string).

Definition hexValue (c : ascii) : option Z :=
  let n := code c in
  if (48 <=? n) && (n <=? 57) then Some (n - 48)
  else if (97 <=? n) && (n <=? 102) then Some (n - 97 + 10)
  else if (65 <=? n) && (n <=? 70) then Some (n - 65 + 10)
  else None.

(** The inner loop of [parseIPv6]: one group of hex digits.  Gives the
    value, the number of digits and what is left of the string; [None] when
    the group has more than four digits or overflows 16 bits. *)
Fixpoint hexGroup (s : string) (off : nat) (acc : Z) : option (Z * nat * string) :=
  match s with
  | EmptyString => Some (acc, off, s)
  | String c r =>
      match hexValue c with
      | None => Some (acc, off, s)
      | Some d =>
          let acc' := uint32 (Z.shiftl acc 4 + d) in
          if (3 <? off)%nat then None
          else if 65535 <? acc' then None
          else hexGroup r (S off) acc'
      end
  end.

Definition startsWith (s : string) (c : ascii) : bool :=
  match s with
  | String x _ => Ascii.eqb x c
  | EmptyString => false
  end.

(** The state of the outer loop of [parseIPv6] when it is left: the rest of
    the string, the write index, the buffer and the place of the ellipsis. *)
Record v6state : Type := mkV6 {
  v6rest : string; v6i : nat; v6ip : list Z; v6ellipsis : option nat }.

(** The outer loop: at most eight rounds, since [i] grows by two. *)
Fixpoint parseIPv6_loop (fuel : nat) (s : string) (i : nat) (ip : list Z)
    (ellipsis : option nat) : option v6state :=
  match fuel with
  | O => Some (mkV6 s i ip ellipsis)
  | S fuel' =>
      if (16 <=? i)%nat then Some (mkV6 s i ip ellipsis)
      else
        match hexGroup s O 0 with
        | None => None
        | Some (acc, off, rest) =>
            if (off =? 0)%nat then None
            else if startsWith rest "." then
              if (match ellipsis with None => true | Some _ => false end)
                 && negb (i =? 12)%nat then None
              else if (16 <? i + 4)%nat then None
              else
                match parseIPv4Fields s (take 4 (drop i ip)) with
                | None => None
                | Some f4 =>
                    Some (mkV6 EmptyString (i + 4)
                            (take i ip ++ f4 ++ drop (i + 4) ip) ellipsis)
                end
            else
              let ip1 := <[S i := wrap8 acc]>
                           (<[i := wrap8 (Z.shiftr acc 8)]> ip) in
              let i1 := (i + 2)%nat in
              match rest with
              | EmptyString => Some (mkV6 rest i1 ip1 ellipsis)
              | String c0 r0 =>
                  if negb (Ascii.eqb c0 ":") then None
                  else
                    match r0 with
                    | EmptyString => None
                    | String c1 r1 =>
                        if Ascii.eqb c1 ":" then
                          match ellipsis with
                          | Some _ => None
                          | None =>
                              match r1 with
                              | EmptyString =>
                                  Some (mkV6 r1 i1 ip1 (Some i1))
                              | String _ _ =>
                                  parseIPv6_loop fuel' r1 i1 ip1 (Some i1)
                              end
                          end
                        else parseIPv6_loop fuel' r0 i1 ip1 ellipsis
                    end
              end
        end
  end.

Definition parseIPv6 (in_ : string) : option Addr :=
  let split :=
    match IndexByteString in_ "%" with
    | Some i => (sliceTo i in_, sliceFrom (S i) in_, true)
    | None => (in_, EmptyString, false)
    end in
  let '(s, zone, hasZone) := split in
  if hasZone && (match zone with EmptyString => true | _ => false end)
  then None
  else
    let ip := replicate 16 0 in
    let lead := HasPrefix s "::" in
    let s1 := if lead then sliceFrom 2 s else s in
    let ellipsis := if lead then Some O else None in
    if lead && (match s1 with EmptyString => true | _ => false end)
    then Some (Addr6 ip zone)
    else
      match parseIPv6_loop 8 s1 O ip ellipsis with
      | None => None
      | Some st =>
          match v6rest st with
          | String _ _ => None
          | EmptyString =>
              let i := v6i st in
              if (i <? 16)%nat then
                match v6ellipsis st with
                | None => None
                | Some e =>
                    let n := (16 - i)%nat in
                    Some (Addr6 (take e (v6ip st) ++ replicate n 0
                                   ++ take (i - e) (drop e (v6ip st))) zone)
                end
              else
                match v6ellipsis st with
                | Some _ => None
                | None => Some (Addr6 (v6ip st) zone)
                end
          end
      end.

(** [netip.ParseAddr]: the first of [.], [:] and [%] decides the family. *)
Fixpoint ParseAddr_scan (s rest : string) : option Addr :=
  match rest with
  | EmptyString => None
  | String c r =>
      if Ascii.eqb c "." then
        match parseIPv4 s with
        | Some b => Some (Addr4 b)
        | None => None
        end
      else if Ascii.eqb c ":" then parseIPv6 s
      else if Ascii.eqb c "%" then None
      else ParseAddr_scan s r
  end.

Definition ParseAddr (s : string) : option Addr := ParseAddr_scan s s.

Definition v4InV6Prefix : list Z := [0; 0; 0; 0; 0; 0; 0; 0; 0; 0; 255; 255].

Definition As16 (a : Addr) : list Z :=
  match a with
  | Addr4 b => v4InV6Prefix ++ b
  | Addr6 b _ => b
  end.

Definition BitLen (a : Addr) : Z :=
  match a with
  | Addr4 _ => 32
  | Addr6 _ _ => 128
  end.

Definition Zone (a : Addr) : string :=
  match a with
  | Addr4 _ => EmptyString
  | Addr6 _ z => z
  end.

(** ** Package net: masks and addresses *)

Record IPNet : Type := mkIPNet { IPNet_IP : IP; IPNet_Mask : IPMask }.

Fixpoint CIDRMask_loop (l : nat) (n : Z) : IPMask :=
  match l with
  | O => []
  | S l' =>
      if 8 <=? n then 255 :: CIDRMask_loop l' (n - 8)
      else not8 (Z.shiftr 255 n) :: CIDRMask_loop l' 0
  end.

Definition CIDRMask (ones bits : Z) : IPMask :=
  if negb (bits =? 32) && negb (bits =? 128) then []
  else if (ones <? 0) || (bits <? ones) then []
  else CIDRMask_loop (Z.to_nat (bits / 8)) ones.

Definition allFF (b : list Z) : bool := forallb (fun x => x =? 255) b.
Definition isZeros (b : list Z) : bool := forallb (fun x => x =? 0) b.

(** [ip.Mask(mask)]. *)
Definition IP_Mask (ip : IP) (mask : IPMask) : IP :=
  let mask1 :=
    if (length mask =? IPv6len)%nat && (length ip =? IPv4len)%nat
       && allFF (take 12 mask)
    then drop 12 mask else mask in
  let ip1 :=
    if (length mask1 =? IPv4len)%nat && (length ip =? IPv6len)%nat
       && bool_decide (take 12 ip = v4InV6Prefix)
    then drop 12 ip else ip in
  if negb (length ip1 =? length mask1)%nat then []
  else zip_with Z.land ip1 mask1.

(** [ip.To4()]; the nil result is the empty list. *)
Definition To4 (ip : IP) : IP :=
  if (length ip =? IPv4len)%nat then ip
  else if (length ip =? IPv6len)%nat && isZeros (take 10 ip)
          && (ip !!! 10%nat =? 255) && (ip !!! 11%nat =? 255)
  then take 4 (drop 12 ip)
  else [].

Definition isNil (ip : IP) : bool :=
  match ip with [] => true | _ => false end.

(** The loop [for v&0x80 != 0 { n++; v <<= 1 }] on a byte: at most eight
    rounds. *)
Fixpoint leadingOnes (fuel : nat) (v n : Z) : Z * Z :=
  match fuel with
  | O => (v, n)
  | S f =>
      if negb (Z.land v 128 =? 0) then leadingOnes f (wrap8 (Z.shiftl v 1)) (n + 1)
      else (v, n)
  end.

Fixpoint simpleMaskLength_loop (mask : IPMask) (n : Z) : Z :=
  match mask with
  | [] => n
  | v :: rest =>
      if v =? 255 then simpleMaskLength_loop rest (n + 8)
      else
        let '(v', n') := leadingOnes 8 v n in
        if negb (v' =? 0) then -1
        else if isZeros rest then n' else -1
  end.

Definition simpleMaskLength (mask : IPMask) : Z := simpleMaskLength_loop mask 0.

(** [m.Size()]: the pair (ones, bits). *)
Definition Size (m : IPMask) : Z * Z :=
  let ones := simpleMaskLength m in
  if ones =? -1 then (0, 0) else (ones, Z.of_nat (length m) * 8).

(** [net.ParseCIDR]; the error is a [ParseError] of type "CIDR address". *)
Definition ParseCIDR (s : string) : result (IP * IPNet) :=
  let bad := Err ("invalid CIDR address: " ++ s)%string in
  match IndexByteString s "/" with
  | None => bad
  | Some i =>
      let addr := sliceTo i s in
      let mask := sliceFrom (S i) s in
      match ParseAddr addr with
      | None => bad
      | Some ipAddr =>
          if negb (String.eqb (Zone ipAddr) EmptyString) then bad
          else
            let '(n, j, ok) := dtoi mask in
            if negb ok || negb (j =? String.length mask)%nat
               || (n <? 0) || (BitLen ipAddr <? n)
            then bad
            else
              let m := CIDRMask n (BitLen ipAddr) in
              let addr16 := As16 ipAddr in
              Ok (addr16, mkIPNet (IP_Mask addr16 m) m)
      end
  end.

(** ** Package net: the text of an address *)

Definition hexDigit (n : Z) : ascii :=
  if n <? 10 then char (48 + n) else char (87 + n).

Definition appendHex (b : string) (x : Z) : string :=
  let b1 := if 4096 <=? x then (b ++ String (hexDigit (Z.shiftr x 12)) EmptyString)%string else b in
  let b2 := if 256 <=? x then (b1 ++ String (hexDigit (Z.land (Z.shiftr x 8) 15)) EmptyString)%string else b1 in
  let b3 := if 16 <=? x then (b2 ++ String (hexDigit (Z.land (Z.shiftr x 4) 15)) EmptyString)%string else b2 in
  (b3 ++ String (hexDigit (Z.land x 15)) EmptyString)%string.

Fixpoint hexString (b : list Z) : string :=
  match b with
  | [] => EmptyString
  | x :: r =>
      String (hexDigit (Z.shiftr x 4)) (String (hexDigit (Z.land x 15)) (hexString r))
  end.

Definition string4 (ip : list Z) : string :=
  (FormatInt (ip !!! 0%nat) ++ "." ++ FormatInt (ip !!! 1%nat) ++ "."
   ++ FormatInt (ip !!! 2%nat) ++ "." ++ FormatInt (ip !!! 3%nat))%string.

(** The 16-bit group [j] of a sixteen-byte address. *)
Definition v6u16 (ip : list Z) (j : nat) : Z :=
  (ip !!! (2 * j)%nat) * 256 + ip !!! (2 * j + 1)%nat.

(** The end of the run of zero groups that starts at [j]. *)
Fixpoint zeroRunEnd (fuel : nat) (ip : list Z) (j : nat) : nat :=
  match fuel with
  | O => j
  | S f =>
      if (j <? 8)%nat && (v6u16 ip j =? 0) then zeroRunEnd f ip (S j) else j
  end.

(** The longest run of two or more zero groups, as (start, end); (255, 255)
    when there is none. *)
Fixpoint zeroRun (n : nat) (ip : list Z) (i : nat) (zs ze : nat) : nat * nat :=
  match n with
  | O => (zs, ze)
  | S n' =>
      let j := zeroRunEnd 8 ip i in
      let l := (j - i)%nat in
      if (2 <=? l)%nat && (ze - zs <? l)%nat then zeroRun n' ip (S i) i j
      else zeroRun n' ip (S i) zs ze
  end.

Fixpoint appendTo6_loop (fuel : nat) (ip : list Z) (i zs ze : nat) (ret : string) : string :=
  match fuel with
  | O => ret
  | S f =>
      if (8 <=? i)%nat then ret
      else if (i =? zs)%nat then
        let ret1 := (ret ++ "::")%string in
        if (8 <=? ze)%nat then ret1
        else appendTo6_loop f ip (S ze) zs ze (appendHex ret1 (v6u16 ip ze))
      else
        let ret1 := if (0 <? i)%nat then (ret ++ ":")%string else ret in
        appendTo6_loop f ip (S i) zs ze (appendHex ret1 (v6u16 ip i))
  end.

Definition string6 (ip : list Z) : string :=
  let '(zs, ze) := zeroRun 8 ip O 255 255 in
  appendTo6_loop 8 ip O zs ze EmptyString.

(** [ip.String()]. *)
Definition IP_String (ip : IP) : string :=
  if (length ip =? 0)%nat then "<nil>"
  else if negb (length ip =? IPv4len)%nat && negb (length ip =? IPv6len)%nat
  then String "?" (hexString ip)
  else
    let p4 := To4 ip in
    if (length p4 =? IPv4len)%nat then string4 p4 else string6 ip.

(** ** parseCIDR

    [fmt.Errorf("invalid CIDR: %v", err)] prints the text of the error of
    [net.ParseCIDR].  [parts[0]] and [parts[1]] are in range: the string
    holds a [/] (lemma [Split_two]). *)

Definition parseCIDR (cidr : string) : result (string * string) :=
  if negb (Contains cidr "/") then Err "invalid CIDR format"
  else
    match ParseCIDR cidr with
    | Err err => Err ("invalid CIDR: " ++ err)%string
    | Ok _ =>
        let parts := Split cidr "/" in
        Ok (nth 0 parts EmptyString, nth 1 parts EmptyString)
    end.

(** ** calculate

    [Subnet] holds the local variables of [calculate] once the input is
    validated; [calculate_subnet] is lines 102 to 137 of the source, and
    [calculate_items] the slice literal it returns. *)

Record Subnet : Type := mkSubnet {
  ones : Z;
  netmask : IP;
  wildcard : IPMask;
  wildcardIP : IP;
  network : IP;
  broadcast : IP;
  hostmin : IP;
  hostmax : IP;
  totalHosts : Z }.

(** [for i := 0; i < 4; i++ { broadcast[i] |= ^mask[i] }], from index [i]
    with [n] rounds left. *)
Fixpoint broadcast_loop (n : nat) (i : nat) (mask : IPMask) (broadcast : IP) : IP :=
  match n with
  | O => broadcast
  | S n' =>
      broadcast_loop n' (S i) mask
        (<[i := Z.lor (broadcast !!! i) (not8 (mask !!! i))]> broadcast)
  end.

Definition calculate_subnet (ipNet : IPNet) : Subnet :=
  let ones := fst (Size (IPNet_Mask ipNet)) in
  let netmask := To4 (IPNet_Mask ipNet) in
  let wildcard := map not8 (IPNet_Mask ipNet) in
  let wildcardIP := To4 wildcard in
  let network := To4 (IPNet_IP ipNet) in
  let broadcast := broadcast_loop 4 0 (IPNet_Mask ipNet) network in
  let '(hostmin, hostmax) :=
    if ones =? 32 then (network, network)
    else if ones =? 31 then (network, broadcast)
    else (incrementIP network, decrementIP broadcast) in
  let totalHosts := calculateTotalHosts ones in
  mkSubnet ones netmask wildcard wildcardIP network broadcast
           hostmin hostmax totalHosts.

Definition calculate_items (ipStr : string) (s : Subnet) : list ResultItem :=
  [ mkItem "Address" ipStr;
    mkItem "Bitmask" (FormatInt (ones s));
    mkItem "Netmask" (IP_String (netmask s));
    mkItem "Wildcard" (IP_String (wildcardIP s));
    mkItem "Network" (IP_String (network s));
    mkItem "Broadcast" (IP_String (broadcast s));
    mkItem "Hostmin" (IP_String (hostmin s));
    mkItem "Hostmax" (IP_String (hostmax s));
    mkItem "Hosts" (FormatInt (totalHosts s)) ].

(** The validation of [calculate] (lines 88 to 100): the network the input
    denotes, or the error. *)
Definition calculate_parse (ipStr bitmaskStr : string) : result IPNet :=
  match Atoi bitmaskStr with
  | None => Err "invalid bitmask"
  | Some bitmask =>
      if (bitmask <? 0) || (32 <? bitmask) then Err "invalid bitmask"
      else
        match ParseCIDR (ipStr ++ "/" ++ FormatInt bitmask) with
        | Err _ => Err "invalid IP address"
        | Ok (_, ipNet) =>
            if isNil (To4 (IPNet_IP ipNet)) then Err "IPv6 is not supported"
            else Ok ipNet
        end
  end.

Definition calculate (ipStr bitmaskStr : string) : result (list ResultItem) :=
  match calculate_parse ipStr bitmaskStr with
  | Err msg => Err msg
  | Ok ipNet => Ok (calculate_items ipStr (calculate_subnet ipNet))
  end.

(** ** runConsoleMode, without the printing and the timing: the error that
    is fatal, or the items that are printed. *)
Definition runConsoleMode (cidr : string) : result (list ResultItem) :=
  match parseCIDR cidr with
  | Err err => Err err
  | Ok (ipStr, bitmaskStr) => calculate ipStr bitmaskStr
  end.

(** ** Finite ranges

    The integers from 0 up to [n], excluded: the bytes are [Zrange 256] and
    the prefix lengths [Zrange 33]. *)

Definition Zrange (n : nat) : list Z := map Z.of_nat (seq 0 n).

(** ** Valid input

    The address text is an IPv4 address with the bytes [b], and the prefix
    text is the integer [p], between 0 and 32. *)

Definition ValidInput (ipStr bitmaskStr : string) (b : list Z) (p : Z) : Prop :=
  ParseAddr ipStr = Some (Addr4 b) /\ Atoi bitmaskStr = Some p /\ 0 <= p <= 32.

#[global] Instance isByte_dec (b : Z) : Decision (isByte b).
Proof. unfold isByte. apply _. Defined.

(** The number of one-bits of a byte, and of a byte slice. *)
Definition onesCount8 (b : Z) : Z :=
  Z.of_nat (length (filter (fun i => Z.testbit b i) (Zrange 8))).

Definition onesCount (ip : list Z) : Z :=
  fold_right (fun b acc => onesCount8 b + acc) 0 ip.

(** The names of the nine items, in the order of the slice literal. *)
Definition itemNames : list string :=
  ["Address"; "Bitmask"; "Netmask"; "Wildcard"; "Network"; "Broadcast";
   "Hostmin"; "Hostmax"; "Hosts"].

(** The subnet [calculate] derives from the address bytes [b] and the prefix
    length [p]: its local variables on the network [net.ParseCIDR] gives. *)
Definition subnetOf (b : list Z) (p : Z) : Subnet :=
  calculate_subnet (mkIPNet (zip_with Z.land b (CIDRMask p 32)) (CIDRMask p 32)).

(** * Properties *)

(** ** Finite ranges

    A property of a byte, or of a prefix length, that is a boolean test is
    settled by running the test on each value of the range. *)

Lemma Zrange_In (n : nat) (z : Z) : 0 <= z < Z.of_nat n -> In z (Zrange n).
Proof.
  intros Hz. unfold Zrange. apply in_map_iff.
  exists (Z.to_nat z). split; [lia|]. apply in_seq. lia.
Qed.

Lemma forallb_Zrange (P : Z -> bool) (n : nat) :
  forallb P (Zrange n) = true ->
  forall z, 0 <= z < Z.of_nat n -> P z = true.
Proof.
  intros Hall z Hz. rewrite forallb_forall in Hall.
  apply Hall, Zrange_In, Hz.
Qed.

Lemma forall_prefix (P : Z -> bool) :
  forallb P (Zrange 33) = true -> forall p, 0 <= p <= 32 -> P p = true.
Proof. intros Hall p Hp. apply (forallb_Zrange P 33 Hall). lia. Qed.

(** ** Bytes and bits *)

Lemma byte_high_bits (m i : Z) : isByte m -> 8 <= i -> Z.testbit m i = false.
Proof.
  intros Hm Hi. rewrite <- (Z.mod_small m (2 ^ 8)) by (unfold isByte in Hm; lia).
  apply Z.mod_pow2_bits_high. lia.
Qed.

Lemma bits_255 (i : Z) : 0 <= i -> Z.testbit 255 i = (i <? 8).
Proof.
  intros Hi. change 255 with (Z.ones 8).
  destruct (Z.ltb_spec i 8).
  - apply Z.ones_spec_low. lia.
  - apply Z.ones_spec_high. lia.
Qed.

Lemma isByte_bits (x : Z) :
  0 <= x -> (forall i, 8 <= i -> Z.testbit x i = false) -> isByte x.
Proof.
  intros Hx Hhigh. unfold isByte. split; [exact Hx|].
  destruct (Z.eq_dec x 0) as [->|Hnz]; [lia|].
  assert (Hlog : Z.log2 x < 8).
  { destruct (Z.lt_ge_cases (Z.log2 x) 8) as [|Hge]; [assumption|].
    pose proof (Z.bit_log2 x ltac:(lia)) as Hbit.
    rewrite (Hhigh _ Hge) in Hbit. discriminate. }
  apply Z.log2_lt_pow2 in Hlog; lia.
Qed.

Lemma not8_byte (m : Z) : isByte m -> not8 m = 255 - m.
Proof.
  intros Hm. unfold not8.
  rewrite <- Z.sub_lor_land.
  assert (Hor : Z.lor m 255 = 255).
  { apply Z.bits_inj'. intros i Hi. rewrite Z.lor_spec, bits_255 by exact Hi.
    destruct (Z.ltb_spec i 8).
    - apply orb_true_r.
    - rewrite (byte_high_bits m i Hm) by lia. reflexivity. }
  assert (Hand : Z.land m 255 = m).
  { change 255 with (Z.ones 8). rewrite Z.land_ones by lia.
    apply Z.mod_small. unfold isByte in Hm. lia. }
  rewrite Hor, Hand. reflexivity.
Qed.

Lemma not8_isByte (m : Z) : isByte m -> isByte (not8 m).
Proof. intros Hm. rewrite not8_byte by exact Hm. unfold isByte in *. lia. Qed.

Lemma land_isByte (b m : Z) : isByte m -> isByte (Z.land b m).
Proof.
  intros Hm. apply isByte_bits.
  - apply Z.land_nonneg. right. unfold isByte in Hm. lia.
  - intros i Hi. rewrite Z.land_spec, (byte_high_bits m i Hm Hi).
    apply andb_false_r.
Qed.

Lemma lor_isByte (x y : Z) : isByte x -> isByte y -> isByte (Z.lor x y).
Proof.
  intros Hx Hy. apply isByte_bits.
  - apply Z.lor_nonneg. unfold isByte in *. lia.
  - intros i Hi. rewrite Z.lor_spec, (byte_high_bits x i Hx Hi),
      (byte_high_bits y i Hy Hi). reflexivity.
Qed.

(** A masked byte and the complement of the mask share no bit. *)
Lemma land_not8_disjoint (b m : Z) :
  isByte m -> Z.land (Z.land b m) (not8 m) = 0.
Proof.
  intros Hm. apply Z.bits_inj'. intros i Hi. unfold not8.
  rewrite !Z.land_spec, Z.lxor_spec, Z.bits_0, bits_255 by exact Hi.
  destruct (Z.ltb_spec i 8).
  - destruct (Z.testbit b i), (Z.testbit m i); reflexivity.
  - rewrite (byte_high_bits m i Hm) by lia. rewrite andb_false_r. reflexivity.
Qed.

Lemma lor_disjoint_add (x y : Z) : Z.land x y = 0 -> Z.lor x y = x + y.
Proof. intros H. pose proof (Z.add_lor_land x y) as E. lia. Qed.

Lemma land_le_mask (b m : Z) : isByte b -> isByte m -> Z.land b m <= m.
Proof.
  intros Hb Hm.
  assert (Hd : Z.land (Z.land b m) (not8 m) = 0) by (apply land_not8_disjoint, Hm).
  pose proof (lor_disjoint_add _ _ Hd) as Hsum.
  assert (Hbyte : isByte (Z.lor (Z.land b m) (not8 m))).
  { apply lor_isByte; [apply land_isByte, Hm | apply not8_isByte, Hm]. }
  rewrite Hsum, not8_byte in Hbyte by exact Hm.
  unfold isByte in *. lia.
Qed.

(** Masking the broadcast byte gives the network byte back. *)
Lemma land_lor_not8 (b m : Z) :
  isByte m -> Z.land (Z.lor (Z.land b m) (not8 m)) m = Z.land b m.
Proof.
  intros Hm. apply Z.bits_inj'. intros i Hi. unfold not8.
  rewrite !Z.land_spec, Z.lor_spec, Z.land_spec, Z.lxor_spec, bits_255 by exact Hi.
  destruct (Z.ltb_spec i 8).
  - destruct (Z.testbit b i), (Z.testbit m i); reflexivity.
  - rewrite (byte_high_bits m i Hm) by lia. rewrite !andb_false_r. reflexivity.
Qed.

Lemma land_mask_idem (b m : Z) : Z.land (Z.land b m) m = Z.land b m.
Proof. rewrite <- Z.land_assoc, Z.land_diag. reflexivity. Qed.

(** ** incrementIP and decrementIP on four bytes *)

Lemma bigEndian4 (a b c d : Z) :
  bigEndian [a; b; c; d] = a * 2 ^ 24 + b * 2 ^ 16 + c * 2 ^ 8 + d.
Proof. unfold bigEndian. simpl. lia. Qed.

Lemma wrap8_inc (x : Z) :
  isByte x -> wrap8 (x + 1) = if x <? 255 then x + 1 else 0.
Proof.
  unfold isByte, wrap8. intros Hx. destruct (Z.ltb_spec x 255).
  - apply Z.mod_small. lia.
  - replace x with 255 by lia. reflexivity.
Qed.

Lemma wrap8_dec (x : Z) :
  isByte x -> wrap8 (x - 1) = if 0 <? x then x - 1 else 255.
Proof.
  unfold isByte, wrap8. intros Hx. destruct (Z.ltb_spec 0 x).
  - apply Z.mod_small. lia.
  - replace x with 0 by lia. reflexivity.
Qed.

Ltac inc_step x :=
  rewrite (wrap8_inc x) by assumption;
  destruct (Z.ltb_spec x 255);
  [ rewrite (proj2 (Z.eqb_neq (x + 1) 0)) by (unfold isByte in *; lia);
    reflexivity
  | rewrite Z.eqb_refl; simpl ].

Ltac dec_step x :=
  rewrite (wrap8_dec x) by assumption;
  destruct (Z.ltb_spec 0 x);
  [ rewrite (proj2 (Z.eqb_neq (x - 1) 255)) by (unfold isByte in *; lia);
    reflexivity
  | rewrite Z.eqb_refl; simpl ].

(** The carry: the loop stops at the first byte, from the right, that is
    not 255 before the increment, that is, not 0 after it. *)
Lemma incrementIP_cases (a b c d : Z) :
  isByte a -> isByte b -> isByte c -> isByte d ->
  incrementIP [a; b; c; d] =
    if d <? 255 then [a; b; c; d + 1]
    else if c <? 255 then [a; b; c + 1; 0]
    else if b <? 255 then [a; b + 1; 0; 0]
    else if a <? 255 then [a + 1; 0; 0; 0]
    else [0; 0; 0; 0].
Proof.
  intros Ha Hb Hc Hd. unfold incrementIP. simpl.
  inc_step d. inc_step c. inc_step b. inc_step a. reflexivity.
Qed.

(** The borrow: the loop stops at the first byte, from the right, that is
    not 0 before the decrement, that is, not 255 after it. *)
Lemma decrementIP_cases (a b c d : Z) :
  isByte a -> isByte b -> isByte c -> isByte d ->
  decrementIP [a; b; c; d] =
    if 0 <? d then [a; b; c; d - 1]
    else if 0 <? c then [a; b; c - 1; 255]
    else if 0 <? b then [a; b - 1; 255; 255]
    else if 0 <? a then [a - 1; 255; 255; 255]
    else [255; 255; 255; 255].
Proof.
  intros Ha Hb Hc Hd. unfold decrementIP. simpl.
  dec_step d. dec_step c. dec_step b. dec_step a. reflexivity.
Qed.

Ltac split_ltb :=
  repeat match goal with
         | |- context [Z.ltb ?x ?y] => destruct (Z.ltb_spec x y)
         end.

Lemma incrementIP_value (a b c d : Z) :
  isByte a -> isByte b -> isByte c -> isByte d ->
  bigEndian (incrementIP [a; b; c; d]) = (bigEndian [a; b; c; d] + 1) mod 2 ^ 32.
Proof.
  intros Ha Hb Hc Hd. rewrite incrementIP_cases by assumption.
  unfold isByte in *. split_ltb; rewrite !bigEndian4.
  1-4: rewrite Z.mod_small; lia.
  replace a with 255 by lia. replace b with 255 by lia.
  replace c with 255 by lia. replace d with 255 by lia. reflexivity.
Qed.

Lemma decrementIP_value (a b c d : Z) :
  isByte a -> isByte b -> isByte c -> isByte d ->
  bigEndian (decrementIP [a; b; c; d]) = (bigEndian [a; b; c; d] - 1) mod 2 ^ 32.
Proof.
  intros Ha Hb Hc Hd. rewrite decrementIP_cases by assumption.
  unfold isByte in *. split_ltb; rewrite !bigEndian4.
  1-4: rewrite Z.mod_small; lia.
  replace a with 0 by lia. replace b with 0 by lia.
  replace c with 0 by lia. replace d with 0 by lia. reflexivity.
Qed.

Lemma incrementIP_isByte (a b c d : Z) :
  isByte a -> isByte b -> isByte c -> isByte d ->
  exists a' b' c' d', incrementIP [a; b; c; d] = [a'; b'; c'; d']
    /\ isByte a' /\ isByte b' /\ isByte c' /\ isByte d'.
Proof.
  intros Ha Hb Hc Hd. rewrite incrementIP_cases by assumption.
  unfold isByte in *. split_ltb; do 4 eexists; (split; [reflexivity|lia]).
Qed.

Lemma decrementIP_isByte (a b c d : Z) :
  isByte a -> isByte b -> isByte c -> isByte d ->
  exists a' b' c' d', decrementIP [a; b; c; d] = [a'; b'; c'; d']
    /\ isByte a' /\ isByte b' /\ isByte c' /\ isByte d'.
Proof.
  intros Ha Hb Hc Hd. rewrite decrementIP_cases by assumption.
  unfold isByte in *. split_ltb; do 4 eexists; (split; [reflexivity|lia]).
Qed.

Lemma decrementIP_incrementIP (a b c d : Z) :
  isByte a -> isByte b -> isByte c -> isByte d ->
  decrementIP (incrementIP [a; b; c; d]) = [a; b; c; d].
Proof.
  intros Ha Hb Hc Hd. rewrite incrementIP_cases by assumption.
  unfold isByte in *. split_ltb;
    (rewrite decrementIP_cases by (unfold isByte; lia));
    split_ltb; try lia; repeat f_equal; lia.
Qed.

Lemma incrementIP_decrementIP (a b c d : Z) :
  isByte a -> isByte b -> isByte c -> isByte d ->
  incrementIP (decrementIP [a; b; c; d]) = [a; b; c; d].
Proof.
  intros Ha Hb Hc Hd. rewrite decrementIP_cases by assumption.
  unfold isByte in *. split_ltb;
    (rewrite incrementIP_cases by (unfold isByte; lia));
    split_ltb; try lia; repeat f_equal; lia.
Qed.

(** ** Four bytes as a 32-bit word

    Bit [i] of the word is bit [i mod 8] of the byte [3 - i / 8], so the
    byte-wise and the word-wise [&] and [|] agree. *)

Lemma testbit_mul_add (x lo k i : Z) :
  0 <= k -> 0 <= lo < 2 ^ k -> 0 <= i ->
  Z.testbit (x * 2 ^ k + lo) i
  = if i <? k then Z.testbit lo i else Z.testbit x (i - k).
Proof.
  intros Hk Hlo Hi. destruct (Z.ltb_spec i k).
  - rewrite <- (Z.mod_pow2_bits_low (x * 2 ^ k + lo) k i) by lia.
    rewrite Z.add_comm, Z.mod_add by lia.
    rewrite Z.mod_small by lia. reflexivity.
  - replace i with ((i - k) + k) at 1 by lia.
    rewrite <- Z.div_pow2_bits by lia.
    rewrite Z.add_comm, Z.div_add by lia.
    rewrite Z.div_small by lia. reflexivity.
Qed.

Lemma bigEndian4_bits (a b c d i : Z) :
  isByte b -> isByte c -> isByte d -> 0 <= i ->
  Z.testbit (bigEndian [a; b; c; d]) i
  = if i <? 8 then Z.testbit d i
    else if i <? 16 then Z.testbit c (i - 8)
    else if i <? 24 then Z.testbit b (i - 16)
    else Z.testbit a (i - 24).
Proof.
  unfold isByte. intros Hb Hc Hd Hi. rewrite bigEndian4.
  replace (a * 2 ^ 24 + b * 2 ^ 16 + c * 2 ^ 8 + d)
    with (((a * 2 ^ 8 + b) * 2 ^ 8 + c) * 2 ^ 8 + d) by lia.
  rewrite testbit_mul_add by lia.
  destruct (Z.ltb_spec i 8); [reflexivity|].
  rewrite testbit_mul_add by lia.
  destruct (Z.ltb_spec (i - 8) 8); destruct (Z.ltb_spec i 16); try lia;
    [reflexivity|].
  rewrite testbit_mul_add by lia.
  destruct (Z.ltb_spec (i - 8 - 8) 8); destruct (Z.ltb_spec i 24); try lia;
    f_equal; lia.
Qed.

Lemma bigEndian4_bitwise (f : Z -> Z -> Z) (g : bool -> bool -> bool)
    (a b c d a' b' c' d' : Z) :
  (forall x y i, Z.testbit (f x y) i = g (Z.testbit x i) (Z.testbit y i)) ->
  (forall x y, isByte x -> isByte y -> isByte (f x y)) ->
  isByte a -> isByte b -> isByte c -> isByte d ->
  isByte a' -> isByte b' -> isByte c' -> isByte d' ->
  f (bigEndian [a; b; c; d]) (bigEndian [a'; b'; c'; d'])
  = bigEndian [f a a'; f b b'; f c c'; f d d'].
Proof.
  intros Hspec Hbyte Ha Hb Hc Hd Ha' Hb' Hc' Hd'.
  apply Z.bits_inj'. intros i Hi.
  rewrite Hspec, !bigEndian4_bits by auto.
  destruct (i <? 8); [symmetry; apply Hspec|].
  destruct (i <? 16); [symmetry; apply Hspec|].
  destruct (i <? 24); symmetry; apply Hspec.
Qed.

Lemma bigEndian4_land (a b c d a' b' c' d' : Z) :
  isByte a -> isByte b -> isByte c -> isByte d ->
  isByte a' -> isByte b' -> isByte c' -> isByte d' ->
  Z.land (bigEndian [a; b; c; d]) (bigEndian [a'; b'; c'; d'])
  = bigEndian [Z.land a a'; Z.land b b'; Z.land c c'; Z.land d d'].
Proof.
  apply (bigEndian4_bitwise Z.land andb).
  - intros. apply Z.land_spec.
  - intros x y _ Hy. apply land_isByte, Hy.
Qed.

Lemma bigEndian4_lor (a b c d a' b' c' d' : Z) :
  isByte a -> isByte b -> isByte c -> isByte d ->
  isByte a' -> isByte b' -> isByte c' -> isByte d' ->
  Z.lor (bigEndian [a; b; c; d]) (bigEndian [a'; b'; c'; d'])
  = bigEndian [Z.lor a a'; Z.lor b b'; Z.lor c c'; Z.lor d d'].
Proof.
  apply (bigEndian4_bitwise Z.lor orb).
  - intros. apply Z.lor_spec.
  - intros x y Hx Hy. apply lor_isByte; assumption.
Qed.

(** ** Indices in range

    The slices [calculate] and [parseCIDR] index are long enough. *)

Lemma Split_from_nonempty (s : string) (sep : ascii) (cur : string) :
  (1 <= length (Split_from s sep cur))%nat.
Proof.
  revert cur. induction s as [|x r IH]; intros cur; cbn [Split_from].
  - cbn [length]. lia.
  - destruct (Ascii.eqb x sep); [cbn [length]; lia|apply IH].
Qed.

Lemma Split_from_length (s : string) (cur : string) :
  Contains s "/" = true -> (2 <= length (Split_from s "/" cur))%nat.
Proof.
  revert cur. induction s as [|x r IH]; intros cur Hc; [discriminate Hc|].
  cbn [Split_from]. destruct (Ascii.eqb_spec x "/") as [->|Hx].
  - cbn [length]. pose proof (Split_from_nonempty r "/" EmptyString). lia.
  - apply IH. cbn [Contains HasPrefix] in Hc.
    destruct (Ascii.eqb_spec x "/"); [contradiction|].
    cbn [andb orb] in Hc. exact Hc.
Qed.

Lemma Split_two (s : string) :
  Contains s "/" = true -> (2 <= length (Split s "/"))%nat.
Proof. apply Split_from_length. Qed.

Lemma CIDRMask_loop_length (l : nat) (n : Z) : length (CIDRMask_loop l n) = l.
Proof.
  revert n. induction l as [|l IH]; intros n; cbn [CIDRMask_loop]; [reflexivity|].
  destruct (8 <=? n); cbn [length]; rewrite IH; reflexivity.
Qed.

(** The mask [net.ParseCIDR] gives is four or sixteen bytes long. *)
Lemma ParseCIDR_mask_length (s : string) (ip : IP) (ipNet : IPNet) :
  ParseCIDR s = Ok (ip, ipNet) ->
  length (IPNet_Mask ipNet) = IPv4len \/ length (IPNet_Mask ipNet) = IPv6len.
Proof.
  unfold ParseCIDR.
  destruct (IndexByteString s "/") as [i|]; [|discriminate].
  destruct (ParseAddr (sliceTo i s)) as [a|]; [|discriminate].
  destruct (negb _); [discriminate|].
  destruct (dtoi (sliceFrom (S i) s)) as [[n j] ok].
  destruct (negb ok || negb (j =? String.length (sliceFrom (S i) s))%nat
            || (n <? 0) || (BitLen a <? n)) eqn:Hbad; [discriminate|].
  intros H. injection H as _ <-. cbn [IPNet_Mask].
  apply orb_false_elim in Hbad as [Hbad Hhi].
  apply orb_false_elim in Hbad as [_ Hlo].
  apply Z.ltb_ge in Hhi, Hlo.
  unfold CIDRMask. destruct a; cbn [BitLen] in *.
  - cbn [Z.eqb negb andb].
    replace (n <? 0) with false by (symmetry; apply Z.ltb_ge; lia).
    replace (32 <? n) with false by (symmetry; apply Z.ltb_ge; lia).
    left. apply CIDRMask_loop_length.
  - cbn [Z.eqb negb andb].
    replace (n <? 0) with false by (symmetry; apply Z.ltb_ge; lia).
    replace (128 <? n) with false by (symmetry; apply Z.ltb_ge; lia).
    right. apply CIDRMask_loop_length.
Qed.

(** ** Slicing a string at its first separator *)

Lemma IndexByteString_app (a r : string) (c : ascii) :
  IndexByteString a c = None ->
  IndexByteString (a ++ String c r) c = Some (String.length a).
Proof.
  induction a as [|x a IH]; simpl; intros Hnone.
  - rewrite Ascii.eqb_refl. reflexivity.
  - destruct (Ascii.eqb x c); [discriminate|].
    destruct (IndexByteString a c); [discriminate|].
    rewrite IH by reflexivity. reflexivity.
Qed.

Lemma sliceTo_app (a r : string) : sliceTo (String.length a) (a ++ r) = a.
Proof. induction a as [|x a IH]; simpl; [destruct r|rewrite IH]; reflexivity. Qed.

Lemma sliceFrom_app (a r : string) (c : ascii) :
  sliceFrom (S (String.length a)) (a ++ String c r) = r.
Proof. induction a as [|x a IH]; simpl; [reflexivity|exact IH]. Qed.

(** ** The IPv4 parser

    A string it accepts holds digits and dots only, and the four fields it
    gives are bytes. *)

Lemma isDigit_not_slash (c : ascii) : isDigit c = true -> Ascii.eqb c "/" = false.
Proof.
  intros Hd. destruct (Ascii.eqb_spec c "/") as [->|]; [|reflexivity].
  discriminate Hd.
Qed.

Lemma wrap8_isByte (x : Z) : isByte (wrap8 x).
Proof. unfold isByte, wrap8. apply Z.mod_pos_bound. lia. Qed.

Lemma parseIPv4Fields_loop_ok (s : string) :
  forall atStart val pos digLen fields out,
    parseIPv4Fields_loop s atStart val pos digLen fields = Some out ->
    IndexByteString s "/" = None
    /\ length out = length fields
    /\ (Forall isByte fields -> Forall isByte out).
Proof.
  induction s as [|c r IH]; simpl; intros atStart val pos digLen fields out Hp.
  - destruct (pos <? 3)%nat; [discriminate|]. injection Hp as <-.
    split; [reflexivity|]. split; [apply length_insert|].
    intros Hf. apply Forall_insert; [exact Hf|apply wrap8_isByte].
  - destruct (isDigit c) eqn:Hd.
    + rewrite (isDigit_not_slash c Hd).
      destruct ((digLen =? 1) && (val =? 0)); [discriminate|].
      destruct (255 <? val * 10 + (code c - 48)); [discriminate|].
      apply IH in Hp as (Hs & Hl & Hb). rewrite Hs. auto.
    + destruct (Ascii.eqb_spec c ".") as [->|]; [|discriminate].
      destruct (atStart || match r with EmptyString => true | _ => false end);
        [discriminate|].
      destruct (pos =? 3)%nat; [discriminate|].
      apply IH in Hp as (Hs & Hl & Hb). rewrite Hs.
      split; [reflexivity|]. split.
      * rewrite Hl. apply length_insert.
      * intros Hf. apply Hb, Forall_insert; [exact Hf|apply wrap8_isByte].
Qed.

Lemma parseIPv4_ok (s : string) (b : list Z) :
  parseIPv4 s = Some b ->
  IndexByteString s "/" = None /\ length b = 4%nat /\ Forall isByte b.
Proof.
  unfold parseIPv4, parseIPv4Fields. intros Hp.
  apply parseIPv4Fields_loop_ok in Hp as (Hs & Hl & Hb).
  split; [exact Hs|]. split; [exact Hl|].
  apply Hb. repeat constructor; unfold isByte; lia.
Qed.

(** [parseIPv6] gives sixteen-byte addresses only. *)
Lemma parseIPv6_Addr6 (s : string) (a : Addr) :
  parseIPv6 s = Some a -> exists b z, a = Addr6 b z.
Proof.
  unfold parseIPv6.
  repeat match goal with
         | |- context [match ?x with _ => _ end] => destruct x
         end;
  intros H; try discriminate H; injection H as <-; eauto.
Qed.

Lemma ParseAddr_scan_Addr4 (s rest : string) (b : list Z) :
  ParseAddr_scan s rest = Some (Addr4 b) -> parseIPv4 s = Some b.
Proof.
  induction rest as [|c r IH]; simpl; [discriminate|].
  destruct (Ascii.eqb c ".").
  - destruct (parseIPv4 s); [|discriminate]. intros H. injection H as ->. reflexivity.
  - destruct (Ascii.eqb c ":").
    + intros H. apply parseIPv6_Addr6 in H as (b' & z & H). discriminate H.
    + destruct (Ascii.eqb c "%"); [discriminate|exact IH].
Qed.

Lemma ParseAddr_Addr4 (s : string) (b : list Z) :
  ParseAddr s = Some (Addr4 b) ->
  IndexByteString s "/" = None /\ length b = 4%nat /\ Forall isByte b.
Proof. intros H. apply ParseAddr_scan_Addr4, parseIPv4_ok in H. exact H. Qed.

(** ** Prefix lengths: the mask and its text *)

Lemma prefix_cases (P : Z -> Prop) (dec : forall p, Decision (P p)) :
  forallb (fun p => @bool_decide (P p) (dec p)) (Zrange 33) = true ->
  forall p, 0 <= p <= 32 -> P p.
Proof.
  intros Hall p Hp.
  pose proof (forall_prefix _ Hall p Hp) as Hb. simpl in Hb.
  apply bool_decide_eq_true in Hb. exact Hb.
Qed.

Lemma dtoi_FormatInt (p : Z) :
  0 <= p <= 32 ->
  dtoi (FormatInt p) = (p, String.length (FormatInt p), true).
Proof. revert p. apply (prefix_cases _ _). vm_compute. reflexivity. Qed.

Lemma CIDRMask_length (p : Z) : 0 <= p <= 32 -> length (CIDRMask p 32) = 4%nat.
Proof. revert p. apply (prefix_cases _ _). vm_compute. reflexivity. Qed.

Lemma CIDRMask_Size (p : Z) : 0 <= p <= 32 -> Size (CIDRMask p 32) = (p, 32).
Proof. revert p. apply (prefix_cases _ _). vm_compute. reflexivity. Qed.

(** ** The IPv6 parser

    An address text it accepts without a zone holds no [/]: the loop reads
    hex digits, colons and, at the end, the digits and dots of an embedded
    IPv4 address. *)

Lemma append_nil_r (s : string) : (s ++ EmptyString)%string = s.
Proof. induction s as [|c s IH]; simpl; [|rewrite IH]; reflexivity. Qed.

Lemma append_assoc (a b c : string) :
  ((a ++ b) ++ c)%string = (a ++ (b ++ c))%string.
Proof. induction a as [|x a IH]; simpl; [|rewrite IH]; reflexivity. Qed.

Lemma IndexByteString_None_app (a b : string) (c : ascii) :
  IndexByteString a c = None -> IndexByteString b c = None ->
  IndexByteString (a ++ b) c = None.
Proof.
  induction a as [|x a IH]; simpl; intros Ha Hb; [exact Hb|].
  destruct (Ascii.eqb x c); [discriminate|].
  destruct (IndexByteString a c); [discriminate|].
  rewrite IH by auto. reflexivity.
Qed.

Lemma hexValue_not_slash (c : ascii) (d : Z) :
  hexValue c = Some d -> Ascii.eqb c "/" = false.
Proof.
  intros Hd. destruct (Ascii.eqb_spec c "/") as [->|]; [|reflexivity].
  discriminate Hd.
Qed.

Lemma hexGroup_split (s : string) :
  forall off acc acc' off' rest,
    hexGroup s off acc = Some (acc', off', rest) ->
    exists pre, s = (pre ++ rest)%string /\ IndexByteString pre "/" = None.
Proof.
  induction s as [|c r IH]; simpl; intros off acc acc' off' rest Hg.
  - inversion Hg; subst. exists EmptyString. auto.
  - destruct (hexValue c) as [d|] eqn:Hd.
    + destruct (3 <? off)%nat; [discriminate|].
      destruct (65535 <? uint32 (Z.shiftl acc 4 + d)); [discriminate|].
      apply IH in Hg as (pre & -> & Hpre).
      exists (String c pre). split; [reflexivity|].
      simpl. rewrite (hexValue_not_slash c d Hd), Hpre. reflexivity.
    + inversion Hg; subst. exists EmptyString. auto.
Qed.

Lemma parseIPv6_loop_split (fuel : nat) :
  forall s i ip ellipsis st,
    parseIPv6_loop fuel s i ip ellipsis = Some st ->
    exists pre, s = (pre ++ v6rest st)%string /\ IndexByteString pre "/" = None.
Proof.
  induction fuel as [|fuel IH]; cbn [parseIPv6_loop];
    intros s i ip ellipsis st Hl.
  - injection Hl as <-. exists EmptyString. auto.
  - destruct (16 <=? i)%nat.
    { injection Hl as <-. exists EmptyString. auto. }
    destruct (hexGroup s 0 0) as [[[acc off] rest]|] eqn:Hg; [|discriminate].
    destruct (off =? 0)%nat; [discriminate|].
    destruct (hexGroup_split _ _ _ _ _ _ Hg) as (pre & Hs & Hpre).
    destruct (startsWith rest ".").
    { destruct (_ && _); [discriminate|].
      destruct (16 <? i + 4)%nat; [discriminate|].
      destruct (parseIPv4Fields s (take 4 (drop i ip))) as [f4|] eqn:Hf;
        [|discriminate].
      injection Hl as <-. cbn [v6rest]. exists s.
      split; [symmetry; apply append_nil_r|].
      unfold parseIPv4Fields in Hf.
      apply parseIPv4Fields_loop_ok in Hf as (Hno & _). exact Hno. }
    destruct rest as [|c0 r0].
    { injection Hl as <-. cbn [v6rest]. exists pre. auto. }
    destruct (Ascii.eqb_spec c0 ":") as [->|]; [|discriminate].
    cbn [negb] in Hl.
    destruct r0 as [|c1 r1]; [discriminate|].
    destruct (Ascii.eqb_spec c1 ":") as [->|Hc1].
    + destruct ellipsis; [discriminate|].
      destruct r1 as [|c2 r2].
      * injection Hl as <-. cbn [v6rest]. exists (pre ++ "::")%string.
        split; [rewrite Hs, append_nil_r; reflexivity|].
        apply IndexByteString_None_app; [exact Hpre|reflexivity].
      * apply IH in Hl as (pre' & Hr & Hpre').
        exists (pre ++ "::" ++ pre')%string. split.
        -- rewrite Hs, Hr, !append_assoc. reflexivity.
        -- apply IndexByteString_None_app; [exact Hpre|].
           apply (IndexByteString_None_app "::"); [reflexivity|exact Hpre'].
    + apply IH in Hl as (pre' & Hr & Hpre').
      exists (pre ++ ":" ++ pre')%string. split.
      * rewrite Hs, Hr, !append_assoc. reflexivity.
      * apply IndexByteString_None_app; [exact Hpre|].
        apply (IndexByteString_None_app ":"); [reflexivity|exact Hpre'].
Qed.

Lemma HasPrefix_sliceFrom2 (s : string) :
  HasPrefix s "::" = true -> s = ("::" ++ sliceFrom 2 s)%string.
Proof.
  destruct s as [|c0 [|c1 r]]; simpl; try discriminate.
  - rewrite andb_false_r. discriminate.
  - destruct (Ascii.eqb_spec c0 ":") as [->|]; [|discriminate].
    destruct (Ascii.eqb_spec c1 ":") as [->|]; [|discriminate].
    reflexivity.
Qed.

Lemma parseIPv6_no_slash (s : string) (b : list Z) :
  parseIPv6 s = Some (Addr6 b EmptyString) -> IndexByteString s "/" = None.
Proof.
  unfold parseIPv6.
  destruct (IndexByteString s "%") as [i|].
  - cbn [andb]. destruct (sliceFrom (S i) s) as [|z0 z] eqn:Hz; [discriminate|].
    repeat match goal with
           | |- context [match ?x with _ => _ end] => destruct x
           end; discriminate.
  - cbn [andb]. destruct (HasPrefix s "::") eqn:Hlead.
    + pose proof (HasPrefix_sliceFrom2 s Hlead) as E.
      cbn [andb]. destruct (sliceFrom 2 s) as [|c r] eqn:Hs1.
      { intros _. rewrite E. reflexivity. }
      destruct (parseIPv6_loop 8 (String c r) 0 (replicate 16 0) (Some 0%nat))
        as [st|] eqn:Hl; [|discriminate].
      destruct (parseIPv6_loop_split _ _ _ _ _ _ Hl) as (pre & Hs & Hpre).
      destruct (v6rest st); [|discriminate]. intros _.
      rewrite append_nil_r in Hs. rewrite E, Hs.
      apply (IndexByteString_None_app "::"); [reflexivity|exact Hpre].
    + cbn [andb].
      destruct (parseIPv6_loop 8 s 0 (replicate 16 0) None) as [st|] eqn:Hl;
        [|discriminate].
      destruct (parseIPv6_loop_split _ _ _ _ _ _ Hl) as (pre & Hs & Hpre).
      destruct (v6rest st); [|discriminate]. intros _.
      rewrite append_nil_r in Hs. rewrite Hs. exact Hpre.
Qed.

Lemma ParseAddr_scan_Addr6 (s rest : string) (b : list Z) (z : string) :
  ParseAddr_scan s rest = Some (Addr6 b z) -> parseIPv6 s = Some (Addr6 b z).
Proof.
  induction rest as [|c r IH]; simpl; [discriminate|].
  destruct (Ascii.eqb c ".").
  - destruct (parseIPv4 s); discriminate.
  - destruct (Ascii.eqb c ":"); [auto|].
    destruct (Ascii.eqb c "%"); [discriminate|exact IH].
Qed.

Lemma ParseAddr_Addr6 (s : string) (b : list Z) :
  ParseAddr s = Some (Addr6 b EmptyString) -> IndexByteString s "/" = None.
Proof. intros H. apply ParseAddr_scan_Addr6, parseIPv6_no_slash in H. exact H. Qed.

(** ** calculate on valid input *)

Ltac list4 l H :=
  let x0 := fresh l "0" in let x1 := fresh l "1" in
  let x2 := fresh l "2" in let x3 := fresh l "3" in
  destruct l as [|x0 [|x1 [|x2 [|x3 [|? ?]]]]]; try discriminate H; clear H.

Lemma IP_Mask_v4 (b m : list Z) :
  length b = 4%nat -> length m = 4%nat ->
  IP_Mask (v4InV6Prefix ++ b)%list m = zip_with Z.land b m.
Proof. intros Hb Hm. list4 b Hb. list4 m Hm. reflexivity. Qed.

Lemma ParseCIDR_v4 (ipStr : string) (b : list Z) (p : Z) :
  ParseAddr ipStr = Some (Addr4 b) -> 0 <= p <= 32 ->
  ParseCIDR (ipStr ++ "/" ++ FormatInt p) =
    Ok ((v4InV6Prefix ++ b)%list,
        mkIPNet (zip_with Z.land b (CIDRMask p 32)) (CIDRMask p 32)).
Proof.
  intros Ha Hp. destruct (ParseAddr_Addr4 _ _ Ha) as (Hslash & Hlen & _).
  unfold ParseCIDR.
  change (ipStr ++ "/" ++ FormatInt p)%string
    with (ipStr ++ String "/" (FormatInt p))%string.
  rewrite (IndexByteString_app _ _ _ Hslash), sliceTo_app, sliceFrom_app, Ha.
  rewrite (dtoi_FormatInt p Hp). cbn [Zone BitLen As16 negb orb String.eqb].
  rewrite Nat.eqb_refl.
  replace (p <? 0) with false by (symmetry; apply Z.ltb_ge; lia).
  replace (32 <? p) with false by (symmetry; apply Z.ltb_ge; lia).
  cbn [negb orb]. rewrite IP_Mask_v4 by (auto using CIDRMask_length).
  reflexivity.
Qed.

Lemma calculate_parse_valid (ipStr bitmaskStr : string) (b : list Z) (p : Z) :
  ValidInput ipStr bitmaskStr b p ->
  calculate_parse ipStr bitmaskStr =
    Ok (mkIPNet (zip_with Z.land b (CIDRMask p 32)) (CIDRMask p 32)).
Proof.
  intros (Ha & Hn & Hp). unfold calculate_parse. rewrite Hn.
  replace (p <? 0) with false by (symmetry; apply Z.ltb_ge; lia).
  replace (32 <? p) with false by (symmetry; apply Z.ltb_ge; lia).
  cbn [orb]. rewrite (ParseCIDR_v4 _ _ _ Ha Hp). cbn [IPNet_IP].
  destruct (ParseAddr_Addr4 _ _ Ha) as (_ & Hlen & _).
  pose proof (CIDRMask_length p Hp) as Hm.
  destruct (CIDRMask p 32) as [|m0 [|m1 [|m2 [|m3 [|? ?]]]]]; try discriminate Hm.
  list4 b Hlen. reflexivity.
Qed.

(** The local variables of [calculate], for an IPv4 network: four address
    bytes [b] under a four-byte mask [m]. *)
Lemma calculate_subnet_v4 (b0 b1 b2 b3 m0 m1 m2 m3 : Z) :
  let m := [m0; m1; m2; m3] in
  let s := calculate_subnet (mkIPNet (zip_with Z.land [b0; b1; b2; b3] m) m) in
  ones s = fst (Size m)
  /\ netmask s = m
  /\ wildcardIP s = [not8 m0; not8 m1; not8 m2; not8 m3]
  /\ network s = [Z.land b0 m0; Z.land b1 m1; Z.land b2 m2; Z.land b3 m3]
  /\ broadcast s = [Z.lor (Z.land b0 m0) (not8 m0); Z.lor (Z.land b1 m1) (not8 m1);
                    Z.lor (Z.land b2 m2) (not8 m2); Z.lor (Z.land b3 m3) (not8 m3)].
Proof.
  cbv zeta. unfold calculate_subnet. cbn [IPNet_Mask IPNet_IP].
  destruct (fst (Size [m0; m1; m2; m3]) =? 32);
    [|destruct (fst (Size [m0; m1; m2; m3]) =? 31)];
    repeat split; reflexivity.
Qed.

(** The host range follows the three cases of the [switch], whatever the
    network. *)
Lemma calculate_subnet_hosts (ipNet : IPNet) :
  let s := calculate_subnet ipNet in
  hostmin s = (if (ones s =? 32) || (ones s =? 31) then network s
               else incrementIP (network s))
  /\ hostmax s = (if ones s =? 32 then network s
                  else if ones s =? 31 then broadcast s
                  else decrementIP (broadcast s))
  /\ totalHosts s = calculateTotalHosts (ones s).
Proof.
  cbv zeta. unfold calculate_subnet.
  destruct (fst (Size (IPNet_Mask ipNet)) =? 32) eqn:E32;
    [|destruct (fst (Size (IPNet_Mask ipNet)) =? 31) eqn:E31];
    cbn [ones network broadcast hostmin hostmax totalHosts];
    rewrite ?E32, ?E31; repeat split; reflexivity.
Qed.

(** ** The mask of a prefix length *)

Ltac by_prefix :=
  match goal with
  | |- forall p, 0 <= p <= 32 -> @?P p =>
      apply (prefix_cases P _); vm_compute; reflexivity
  end.

Lemma CIDRMask_bytes (p : Z) : 0 <= p <= 32 -> Forall isByte (CIDRMask p 32).
Proof. revert p. by_prefix. Qed.

Lemma CIDRMask_onesCount (p : Z) : 0 <= p <= 32 -> onesCount (CIDRMask p 32) = p.
Proof. revert p. by_prefix. Qed.

(** The complement of the mask, read as an integer, is the size of the
    block less one. *)
Lemma wildcard_value (p : Z) :
  0 <= p <= 32 -> bigEndian (map not8 (CIDRMask p 32)) = 2 ^ (32 - p) - 1.
Proof. revert p. by_prefix. Qed.

(** Up to 30, the last byte of the mask leaves two host bits or more. *)
Lemma CIDRMask_last (p : Z) :
  0 <= p <= 32 -> p <= 30 -> CIDRMask p 32 !!! 3%nat <= 252.
Proof. revert p. by_prefix. Qed.

(** The last byte of the network, of the first host and of the last host,
    for each last byte of a mask up to 30 and each address byte: adding one
    to the network byte, or taking one from the broadcast byte, changes no
    bit under the mask. *)
Lemma last_byte_hosts (p : Z) :
  0 <= p <= 32 ->
  p <= 30 ->
  Forall (fun b =>
            Z.land (Z.land b (CIDRMask p 32 !!! 3%nat) + 1)
                   (CIDRMask p 32 !!! 3%nat)
            = Z.land b (CIDRMask p 32 !!! 3%nat)
            /\ Z.land (Z.lor (Z.land b (CIDRMask p 32 !!! 3%nat))
                             (not8 (CIDRMask p 32 !!! 3%nat)) - 1)
                      (CIDRMask p 32 !!! 3%nat)
               = Z.land b (CIDRMask p 32 !!! 3%nat))
         (Zrange 256).
Proof. revert p. by_prefix. Qed.

Lemma Forall4 (P : Z -> Prop) (a b c d : Z) :
  Forall P [a; b; c; d] -> P a /\ P b /\ P c /\ P d.
Proof.
  intros H. apply Forall_cons in H as [Ha H]. apply Forall_cons in H as [Hb H].
  apply Forall_cons in H as [Hc H]. apply Forall_cons in H as [Hd _]. auto.
Qed.

(** What [calculate] computes on valid input: the network of the masked
    address bytes, and the items of its subnet. *)
Lemma valid_subnet (ipStr bitmaskStr : string) (b : list Z) (p : Z) :
  ValidInput ipStr bitmaskStr b p ->
  exists b0 b1 b2 b3 m0 m1 m2 m3,
    b = [b0; b1; b2; b3] /\ CIDRMask p 32 = [m0; m1; m2; m3]
    /\ (isByte b0 /\ isByte b1 /\ isByte b2 /\ isByte b3)
    /\ (isByte m0 /\ isByte m1 /\ isByte m2 /\ isByte m3)
    /\ let ipNet := mkIPNet (zip_with Z.land b [m0; m1; m2; m3]) [m0; m1; m2; m3] in
       calculate_parse ipStr bitmaskStr = Ok ipNet
       /\ calculate ipStr bitmaskStr
          = Ok (calculate_items ipStr (calculate_subnet ipNet))
       /\ ones (calculate_subnet ipNet) = p.
Proof.
  intros Hv. pose proof (calculate_parse_valid _ _ _ _ Hv) as Hparse.
  destruct Hv as (Ha & Hn & Hp).
  destruct (ParseAddr_Addr4 _ _ Ha) as (_ & Hlen & Hb).
  pose proof (CIDRMask_length p Hp) as Hm.
  pose proof (CIDRMask_bytes p Hp) as Hmb.
  pose proof (CIDRMask_Size p Hp) as Hsize.
  destruct (CIDRMask p 32) as [|m0 [|m1 [|m2 [|m3 [|? ?]]]]]; try discriminate Hm.
  list4 b Hlen. exists b0, b1, b2, b3, m0, m1, m2, m3.
  split; [reflexivity|]. split; [reflexivity|].
  split; [apply Forall4, Hb|]. split; [apply Forall4, Hmb|].
  cbv zeta. split; [exact Hparse|]. split.
  - unfold calculate. rewrite Hparse. reflexivity.
  - destruct (calculate_subnet_v4 b0 b1 b2 b3 m0 m1 m2 m3) as (Hones & _).
    cbv zeta in Hones. rewrite Hones, Hsize. reflexivity.
Qed.

(** ** The host range up to a prefix length of 30

    The last byte of the network is at most 252 and the last byte of the
    broadcast at least 3: the increment and the decrement stop at the last
    byte. *)

Lemma broadcast_byte (b m : Z) :
  isByte b -> isByte m ->
  Z.lor (Z.land b m) (not8 m) = Z.land b m + (255 - m)
  /\ 0 <= Z.land b m <= m.
Proof.
  intros Hb Hm. split.
  - rewrite lor_disjoint_add by (apply land_not8_disjoint, Hm).
    rewrite not8_byte by exact Hm. reflexivity.
  - split; [apply (land_isByte b m Hm)|apply land_le_mask; assumption].
Qed.

Lemma hosts_last_byte (n0 n1 n2 b3 m3 B0 B1 B2 : Z) :
  isByte n0 -> isByte n1 -> isByte n2 -> isByte b3 -> isByte m3 ->
  isByte B0 -> isByte B1 -> isByte B2 ->
  m3 <= 252 ->
  incrementIP [n0; n1; n2; Z.land b3 m3] = [n0; n1; n2; Z.land b3 m3 + 1]
  /\ decrementIP [B0; B1; B2; Z.lor (Z.land b3 m3) (not8 m3)]
     = [B0; B1; B2; Z.lor (Z.land b3 m3) (not8 m3) - 1].
Proof.
  intros Hn0 Hn1 Hn2 Hb3 Hm3 HB0 HB1 HB2 Hle.
  destruct (broadcast_byte b3 m3 Hb3 Hm3) as (HB3 & Hn3).
  assert (isByte (Z.land b3 m3)) by (apply land_isByte, Hm3).
  assert (isByte (Z.lor (Z.land b3 m3) (not8 m3)))
    by (apply lor_isByte; [assumption|apply not8_isByte, Hm3]).
  split.
  - rewrite incrementIP_cases by assumption.
    destruct (Z.ltb_spec (Z.land b3 m3) 255); [reflexivity|lia].
  - rewrite decrementIP_cases by assumption.
    destruct (Z.ltb_spec 0 (Z.lor (Z.land b3 m3) (not8 m3))); [reflexivity|].
    unfold isByte in *. lia.
Qed.

Lemma last_byte_masked (p b : Z) (m0 m1 m2 m3 : Z) :
  0 <= p <= 30 -> CIDRMask p 32 = [m0; m1; m2; m3] -> isByte b ->
  m3 <= 252
  /\ Z.land (Z.land b m3 + 1) m3 = Z.land b m3
  /\ Z.land (Z.lor (Z.land b m3) (not8 m3) - 1) m3 = Z.land b m3.
Proof.
  intros Hp Hm Hb.
  pose proof (CIDRMask_last p ltac:(lia) ltac:(lia)) as Hlast.
  pose proof (last_byte_hosts p ltac:(lia) ltac:(lia)) as Hall.
  rewrite Hm in Hlast, Hall. change ([m0; m1; m2; m3] !!! 3%nat) with m3 in *.
  split; [exact Hlast|].
  rewrite Forall_forall in Hall. apply (Hall b).
  apply list_elem_of_In, Zrange_In. exact Hb.
Qed.

(** ** IPv6 networks with a prefix length up to 32

    The mask leaves bytes 4 to 15 of the address all zero, so the masked
    address is not an IPv4-mapped one and [To4] gives nil. *)

Lemma CIDRMask_v6 (p : Z) :
  0 <= p <= 32 ->
  length (CIDRMask p 128) = 16%nat
  /\ allFF (take 12 (CIDRMask p 128)) = false
  /\ CIDRMask p 128 !!! 10%nat = 0.
Proof. revert p. by_prefix. Qed.

Lemma To4_IP_Mask_v6 (b : list Z) (p : Z) :
  0 <= p <= 32 -> To4 (IP_Mask b (CIDRMask p 128)) = [].
Proof.
  intros Hp. destruct (CIDRMask_v6 p Hp) as (Hlen & Hff & H10).
  unfold IP_Mask. rewrite Hlen, Hff, andb_false_r. rewrite Hlen.
  cbn [Nat.eqb IPv4len IPv6len andb].
  destruct (length b =? 16)%nat eqn:Hb; [|reflexivity].
  apply Nat.eqb_eq in Hb. cbn [negb].
  destruct (CIDRMask p 128) as [|m0 m]; [discriminate Hlen|].
  do 15 (destruct m as [|? m]; [discriminate Hlen|]).
  destruct m; [|discriminate Hlen].
  destruct b as [|b0 b]; [discriminate Hb|].
  do 15 (destruct b as [|? b]; [discriminate Hb|]).
  destruct b; [|discriminate Hb].
  cbn in H10. subst. unfold To4. cbn [zip_with length Nat.eqb IPv4len IPv6len].
  cbn [lookup_total list_lookup_total]. rewrite Z.land_0_r.
  cbn [Z.eqb]. rewrite andb_false_r. reflexivity.
Qed.

Lemma ParseCIDR_v6 (ipStr : string) (b : list Z) (p : Z) :
  ParseAddr ipStr = Some (Addr6 b EmptyString) -> 0 <= p <= 32 ->
  ParseCIDR (ipStr ++ "/" ++ FormatInt p) =
    Ok (b, mkIPNet (IP_Mask b (CIDRMask p 128)) (CIDRMask p 128)).
Proof.
  intros Ha Hp. pose proof (ParseAddr_Addr6 _ _ Ha) as Hslash.
  unfold ParseCIDR.
  change (ipStr ++ "/" ++ FormatInt p)%string
    with (ipStr ++ String "/" (FormatInt p))%string.
  rewrite (IndexByteString_app _ _ _ Hslash), sliceTo_app, sliceFrom_app, Ha.
  rewrite (dtoi_FormatInt p Hp). cbn [Zone BitLen As16 negb orb String.eqb].
  rewrite Nat.eqb_refl.
  replace (p <? 0) with false by (symmetry; apply Z.ltb_ge; lia).
  replace (128 <? p) with false by (symmetry; apply Z.ltb_ge; lia).
  reflexivity.
Qed.

(** ** An IPv4 address followed by [/33] *)

Lemma Contains_app_slash (a r : string) : Contains (a ++ String "/" r) "/" = true.
Proof.
  induction a as [|x a IH]; [simpl; destruct r; reflexivity|].
  cbn [append Contains]. rewrite IH. apply orb_true_r.
Qed.

Lemma ParseCIDR_v4_33 (ipStr : string) (b : list Z) :
  ParseAddr ipStr = Some (Addr4 b) ->
  ParseCIDR (ipStr ++ "/33") = Err ("invalid CIDR address: " ++ ipStr ++ "/33").
Proof.
  intros Ha. destruct (ParseAddr_Addr4 _ _ Ha) as (Hslash & _).
  unfold ParseCIDR.
  change (ipStr ++ "/33")%string with (ipStr ++ String "/" "33")%string.
  rewrite (IndexByteString_app _ _ _ Hslash), sliceTo_app, sliceFrom_app, Ha.
  reflexivity.
Qed.

(** ** From the CIDR string to [calculate]

    When [net.ParseCIDR] accepts [ipStr/m], [parseCIDR] gives the two parts
    back, and the prefix text [m] is a run of digits that [strconv.Atoi]
    reads as [dtoi] did. *)

Lemma Split_from_no_sep (r cur : string) :
  IndexByteString r "/" = None -> Split_from r "/" cur = [(cur ++ r)%string].
Proof.
  revert cur. induction r as [|x r IH]; intros cur Hn; cbn [Split_from].
  - rewrite append_nil_r. reflexivity.
  - cbn [IndexByteString] in Hn. destruct (Ascii.eqb x "/"); [discriminate|].
    destruct (IndexByteString r "/"); [discriminate|].
    rewrite IH by reflexivity. rewrite append_assoc. reflexivity.
Qed.

Lemma Split_from_app (a r cur : string) :
  IndexByteString a "/" = None ->
  Split_from (a ++ String "/" r) "/" cur
  = (cur ++ a)%string :: Split_from r "/" EmptyString.
Proof.
  revert cur. induction a as [|x a IH]; intros cur Hn.
  - cbn [append Split_from]. rewrite Ascii.eqb_refl, append_nil_r. reflexivity.
  - cbn [IndexByteString] in Hn. cbn [append Split_from].
    destruct (Ascii.eqb x "/"); [discriminate|].
    destruct (IndexByteString a "/"); [discriminate|].
    rewrite IH by reflexivity. rewrite append_assoc. reflexivity.
Qed.

Lemma dtoi_loop_full (s : string) :
  forall n0 i0 n,
    dtoi_loop s n0 i0 = (n, (i0 + String.length s)%nat, true) ->
    0 <= n0 < big ->
    digitsValue s n0 = Some n /\ 0 <= n < big /\ IndexByteString s "/" = None.
Proof.
  induction s as [|c r IH]; intros n0 i0 n Hd Hn0.
  - cbn [dtoi_loop] in Hd. destruct (i0 =? 0)%nat; [discriminate|].
    injection Hd as <- _. auto.
  - cbn [dtoi_loop String.length] in Hd. cbn [digitsValue IndexByteString].
    destruct (isDigit c) eqn:Hc.
    + rewrite (isDigit_not_slash c Hc).
      destruct (big <=? n0 * 10 + (code c - 48)) eqn:Hbig; [discriminate|].
      apply Z.leb_gt in Hbig.
      replace (i0 + S (String.length r))%nat
        with (S i0 + String.length r)%nat in Hd by lia.
      apply IH in Hd as (Hv & Hr & Hs).
      * rewrite Hs. auto.
      * unfold isDigit in Hc. apply andb_true_iff in Hc as [Hlo Hhi].
        apply Z.leb_le in Hlo. lia.
    + destruct (i0 =? 0)%nat; [discriminate|].
      injection Hd as _ Hi. lia.
Qed.

Lemma dtoi_Atoi (m : string) (n : Z) :
  dtoi m = (n, String.length m, true) ->
  Atoi m = Some n /\ 0 <= n < big /\ IndexByteString m "/" = None.
Proof.
  intros Hd. unfold dtoi in Hd.
  destruct (dtoi_loop_full m 0 0%nat n Hd ltac:(unfold big; lia)) as (Hv & Hn & Hs).
  split; [|auto].
  destruct m as [|c r]; [discriminate Hd|].
  unfold Atoi.
  assert (Hc : isDigit c = true).
  { cbn [digitsValue] in Hv. destruct (isDigit c); [reflexivity|discriminate]. }
  assert (Hminus : Ascii.eqb c "-" = false).
  { destruct (Ascii.eqb_spec c "-") as [->|]; [discriminate Hc|reflexivity]. }
  assert (Hplus : Ascii.eqb c "+" = false).
  { destruct (Ascii.eqb_spec c "+") as [->|]; [discriminate Hc|reflexivity]. }
  rewrite Hminus, Hplus. cbn [orb]. rewrite Hv.
  replace (minInt <=? n) with true
    by (symmetry; apply Z.leb_le; unfold minInt, big in *; lia).
  replace (n <=? maxInt) with true
    by (symmetry; apply Z.leb_le; unfold maxInt, big in *; lia).
  reflexivity.
Qed.

Lemma parseCIDR_parts (ipStr m : string) (r : IP * IPNet) :
  IndexByteString ipStr "/" = None -> IndexByteString m "/" = None ->
  ParseCIDR (ipStr ++ "/" ++ m) = Ok r ->
  parseCIDR (ipStr ++ "/" ++ m) = Ok (ipStr, m).
Proof.
  intros Hip Hm Hp. unfold parseCIDR. rewrite Hp.
  change (ipStr ++ "/" ++ m)%string with (ipStr ++ String "/" m)%string.
  rewrite Contains_app_slash. cbn [negb]. unfold Split.
  rewrite (Split_from_app _ _ _ Hip), (Split_from_no_sep _ _ Hm).
  reflexivity.
Qed.

(** An IPv6 address with a prefix text that [net.ParseCIDR] accepts (a
    number up to 128): [runConsoleMode] gets to [calculate], which fails on
    the bitmask first and on the family second. *)
Lemma runConsoleMode_v6 (ipStr m : string) (b : list Z) (n : Z) :
  ParseAddr ipStr = Some (Addr6 b EmptyString) ->
  dtoi m = (n, String.length m, true) -> n <= 128 ->
  runConsoleMode (ipStr ++ "/" ++ m) = calculate ipStr m
  /\ Atoi m = Some n /\ 0 <= n.
Proof.
  intros Ha Hd Hn. destruct (dtoi_Atoi m n Hd) as (Hatoi & Hrange & Hm).
  pose proof (ParseAddr_Addr6 _ _ Ha) as Hip.
  split; [|split; [exact Hatoi|lia]].
  unfold runConsoleMode.
  rewrite (parseCIDR_parts ipStr m
             (b, mkIPNet (IP_Mask b (CIDRMask n 128)) (CIDRMask n 128)) Hip Hm);
    [reflexivity|].
  unfold ParseCIDR.
  change (ipStr ++ "/" ++ m)%string with (ipStr ++ String "/" m)%string.
  rewrite (IndexByteString_app _ _ _ Hip), sliceTo_app, sliceFrom_app, Ha, Hd.
  cbn [Zone BitLen As16 negb orb String.eqb]. rewrite Nat.eqb_refl.
  replace (n <? 0) with false by (symmetry; apply Z.ltb_ge; lia).
  replace (128 <? n) with false by (symmetry; apply Z.ltb_ge; lia).
  reflexivity.
Qed.

(** An IPv4 address with a prefix text up to 32: the string is valid input
    and [runConsoleMode] gets to [calculate] with its two parts. *)
Lemma runConsoleMode_v4 (ipStr m : string) (b : list Z) (n : Z) :
  ParseAddr ipStr = Some (Addr4 b) ->
  dtoi m = (n, String.length m, true) -> n <= 32 ->
  runConsoleMode (ipStr ++ "/" ++ m) = calculate ipStr m
  /\ ValidInput ipStr m b n.
Proof.
  intros Ha Hd Hn. destruct (dtoi_Atoi m n Hd) as (Hatoi & Hrange & Hm).
  destruct (ParseAddr_Addr4 _ _ Ha) as (Hip & Hlen & _).
  split; [|split; [exact Ha|split; [exact Hatoi|lia]]].
  unfold runConsoleMode.
  rewrite (parseCIDR_parts ipStr m
             ((v4InV6Prefix ++ b)%list,
              mkIPNet (IP_Mask (v4InV6Prefix ++ b)%list (CIDRMask n 32))
                      (CIDRMask n 32)) Hip Hm);
    [reflexivity|].
  unfold ParseCIDR.
  change (ipStr ++ "/" ++ m)%string with (ipStr ++ String "/" m)%string.
  rewrite (IndexByteString_app _ _ _ Hip), sliceTo_app, sliceFrom_app, Ha, Hd.
  cbn [Zone BitLen As16 negb orb String.eqb]. rewrite Nat.eqb_refl.
  replace (n <? 0) with false by (symmetry; apply Z.ltb_ge; lia).
  replace (32 <? n) with false by (symmetry; apply Z.ltb_ge; lia).
  reflexivity.
Qed.

(** * The claims *)

(** C9. On every four-byte value, [incrementIP] adds one and [decrementIP]
    subtracts one, modulo 2^32: the result is again four bytes, also at
    255.255.255.255 and at 0.0.0.0, and each function undoes the other. *)
Theorem incrementIP_decrementIP_mod32 (v : IP) :
  length v = 4%nat -> Forall isByte v ->
  (length (incrementIP v) = 4%nat /\ Forall isByte (incrementIP v)
   /\ bigEndian (incrementIP v) = (bigEndian v + 1) mod 2 ^ 32)
  /\ (length (decrementIP v) = 4%nat /\ Forall isByte (decrementIP v)
      /\ bigEndian (decrementIP v) = (bigEndian v - 1) mod 2 ^ 32)
  /\ decrementIP (incrementIP v) = v
  /\ incrementIP (decrementIP v) = v.
Proof.
  intros Hlen Hb. list4 v Hlen.
  apply Forall_cons in Hb as [H0 Hb]. apply Forall_cons in Hb as [H1 Hb].
  apply Forall_cons in Hb as [H2 Hb]. apply Forall_cons in Hb as [H3 _].
  repeat split.
  - destruct (incrementIP_isByte v0 v1 v2 v3) as (a & b & c & d & -> & _); auto.
  - destruct (incrementIP_isByte v0 v1 v2 v3) as (a & b & c & d & -> & ?); auto.
    repeat first [apply Forall_nil_2 | apply Forall_cons_2; [tauto|]].
  - apply incrementIP_value; assumption.
  - destruct (decrementIP_isByte v0 v1 v2 v3) as (a & b & c & d & -> & _); auto.
  - destruct (decrementIP_isByte v0 v1 v2 v3) as (a & b & c & d & -> & ?); auto.
    repeat first [apply Forall_nil_2 | apply Forall_cons_2; [tauto|]].
  - apply decrementIP_value; assumption.
  - apply decrementIP_incrementIP; assumption.
  - apply incrementIP_decrementIP; assumption.
Qed.

Lemma incrementIP_decrementIP_mod32_witness :
  bigEndian (incrementIP [255; 255; 255; 255]) = 0
  /\ bigEndian (decrementIP [0; 0; 0; 0]) = 2 ^ 32 - 1
  /\ decrementIP (incrementIP [255; 255; 255; 255]) = [255; 255; 255; 255].
Proof.
  assert (Hlen : length [255; 255; 255; 255] = 4%nat) by reflexivity.
  assert (Hb : Forall isByte [255; 255; 255; 255])
    by (repeat constructor; unfold isByte; lia).
  destruct (incrementIP_decrementIP_mod32 [255; 255; 255; 255] Hlen Hb)
    as ((_ & _ & Hinc) & _ & Hinv & _).
  split; [rewrite Hinc; reflexivity|].
  split; [reflexivity|exact Hinv].
Defined.

(** C2. For every prefix length [p] from 0 to 32, the host count is
    2^(32-p) - 2 when [p] is at most 30 (4294967294 at 0: the 64-bit shift
    does not overflow), 2 at 31 and 1 at 32. *)
Theorem calculateTotalHosts_count (p : Z) :
  0 <= p <= 32 ->
  (p <= 30 -> calculateTotalHosts p = 2 ^ (32 - p) - 2)
  /\ (p = 0 -> calculateTotalHosts p = 4294967294)
  /\ (p = 31 -> calculateTotalHosts p = 2)
  /\ (p = 32 -> calculateTotalHosts p = 1).
Proof.
  intros Hp. repeat split.
  - intros H30. unfold calculateTotalHosts, uint64.
    destruct (Z.leb_spec 31 p); [lia|].
    rewrite Z.shiftl_1_l.
    assert (Hlo : 2 ^ 2 <= 2 ^ (32 - p)) by (apply Z.pow_le_mono_r; lia).
    assert (Hhi : 2 ^ (32 - p) <= 2 ^ 32) by (apply Z.pow_le_mono_r; lia).
    rewrite (Z.mod_small (2 ^ (32 - p))) by lia.
    apply Z.mod_small. lia.
  - intros ->. reflexivity.
  - intros ->. reflexivity.
  - intros ->. reflexivity.
Qed.

Lemma calculateTotalHosts_count_witness :
  calculateTotalHosts 24 = 254 /\ calculateTotalHosts 0 = 4294967294.
Proof.
  split.
  - destruct (calculateTotalHosts_count 24 ltac:(lia)) as (H & _).
    rewrite H by lia. reflexivity.
  - destruct (calculateTotalHosts_count 0 ltac:(lia)) as (_ & H & _).
    apply H. reflexivity.
Defined.

(** C6. The two scenarios: 192.168.1.0/24 and 10.0.0.5/30. *)
Theorem calculate_scenarios :
  calculate "192.168.1.0" "24" =
    Ok [ mkItem "Address" "192.168.1.0"; mkItem "Bitmask" "24";
         mkItem "Netmask" "255.255.255.0"; mkItem "Wildcard" "0.0.0.255";
         mkItem "Network" "192.168.1.0"; mkItem "Broadcast" "192.168.1.255";
         mkItem "Hostmin" "192.168.1.1"; mkItem "Hostmax" "192.168.1.254";
         mkItem "Hosts" "254" ]
  /\ calculate "10.0.0.5" "30" =
    Ok [ mkItem "Address" "10.0.0.5"; mkItem "Bitmask" "30";
         mkItem "Netmask" "255.255.255.252"; mkItem "Wildcard" "0.0.0.3";
         mkItem "Network" "10.0.0.4"; mkItem "Broadcast" "10.0.0.7";
         mkItem "Hostmin" "10.0.0.5"; mkItem "Hostmax" "10.0.0.6";
         mkItem "Hosts" "2" ]
  /\ runConsoleMode "192.168.1.0/24" = calculate "192.168.1.0" "24"
  /\ runConsoleMode "10.0.0.5/30" = calculate "10.0.0.5" "30".
Proof. repeat split; vm_compute; reflexivity. Qed.

(** C8. A successful computation returns nine items, named Address,
    Bitmask, Netmask, Wildcard, Network, Broadcast, Hostmin, Hostmax and
    Hosts in this order, and the value of Address is the address text as it
    was given. *)
Theorem calculate_nine_items (ipStr bitmaskStr : string) (items : list ResultItem) :
  calculate ipStr bitmaskStr = Ok items ->
  length items = 9%nat
  /\ map Name items = itemNames
  /\ head items = Some (mkItem "Address" ipStr).
Proof.
  unfold calculate. destruct (calculate_parse ipStr bitmaskStr); [|discriminate].
  intros H. injection H as <-. repeat split; reflexivity.
Qed.

Lemma calculate_nine_items_witness :
  exists items,
    calculate "192.168.1.5" "0" = Ok items
    /\ map Name items = itemNames
    /\ map Value (filter (fun it => String.eqb (Name it) "Address"
                                    || String.eqb (Name it) "Network") items)
       = ["192.168.1.5"; "0.0.0.0"].
Proof.
  eexists. split; [vm_compute; reflexivity|].
  split.
  - eapply (calculate_nine_items "192.168.1.5" "0"). vm_compute. reflexivity.
  - vm_compute. reflexivity.
Defined.

(** C5. On valid input the wildcard is the complement of the netmask, byte
    by byte; the network and the wildcard share no bit; and the network
    or-ed with the wildcard is the broadcast.  The last two hold byte by
    byte and for the four bytes read as one 32-bit integer. *)
Theorem wildcard_network_broadcast (ipStr bitmaskStr : string) (b : list Z) (p : Z) :
  ValidInput ipStr bitmaskStr b p ->
  exists ipNet,
    calculate_parse ipStr bitmaskStr = Ok ipNet
    /\ calculate ipStr bitmaskStr = Ok (calculate_items ipStr (calculate_subnet ipNet))
    /\ let s := calculate_subnet ipNet in
       netmask s = CIDRMask p 32
       /\ network s = zip_with Z.land b (netmask s)
       /\ wildcardIP s = map not8 (netmask s)
       /\ zip_with Z.land (network s) (wildcardIP s) = [0; 0; 0; 0]
       /\ zip_with Z.lor (network s) (wildcardIP s) = broadcast s
       /\ Z.land (bigEndian (network s)) (bigEndian (wildcardIP s)) = 0
       /\ Z.lor (bigEndian (network s)) (bigEndian (wildcardIP s))
          = bigEndian (broadcast s).
Proof.
  intros Hv.
  destruct (valid_subnet _ _ _ _ Hv)
    as (b0 & b1 & b2 & b3 & m0 & m1 & m2 & m3 & -> & Hm & Hb & Hmb & Hs).
  cbv zeta in Hs. destruct Hs as (Hparse & Hcalc & _).
  destruct Hmb as (Hm0 & Hm1 & Hm2 & Hm3).
  eexists. split; [exact Hparse|]. split; [exact Hcalc|]. cbv zeta.
  destruct (calculate_subnet_v4 b0 b1 b2 b3 m0 m1 m2 m3)
    as (_ & Hmask & Hw & Hn & Hbc).
  cbv zeta in Hmask, Hw, Hn, Hbc. rewrite Hmask, Hw, Hn, Hbc, Hm.
  destruct Hb as (Hb0 & Hb1 & Hb2 & Hb3).
  split; [reflexivity|]. split; [reflexivity|]. split; [reflexivity|].
  split; [|split; [reflexivity|split]].
  - cbn [zip_with]. rewrite !land_not8_disjoint by assumption. reflexivity.
  - rewrite bigEndian4_land by auto using land_isByte, not8_isByte.
    rewrite !land_not8_disjoint by assumption. reflexivity.
  - rewrite bigEndian4_lor by auto using land_isByte, not8_isByte.
    reflexivity.
Qed.

Lemma wildcard_network_broadcast_witness :
  exists ipNet,
    calculate_parse "10.0.0.5" "30" = Ok ipNet
    /\ wildcardIP (calculate_subnet ipNet) = [0; 0; 0; 3]
    /\ zip_with Z.lor (network (calculate_subnet ipNet))
                      (wildcardIP (calculate_subnet ipNet)) = [10; 0; 0; 7].
Proof.
  assert (Hv : ValidInput "10.0.0.5" "30" [10; 0; 0; 5] 30).
  { split; [reflexivity|]. split; [reflexivity|]. lia. }
  destruct (wildcard_network_broadcast "10.0.0.5" "30" [10; 0; 0; 5] 30 Hv)
    as (ipNet & Hparse & _ & Hmask & _ & Hw & _ & Hor & _).
  exists ipNet. split; [exact Hparse|].
  split.
  - rewrite Hw, Hmask. reflexivity.
  - rewrite Hor. vm_compute in Hparse. injection Hparse as <-. reflexivity.
Defined.

(** C7. On valid input the Bitmask item is the prefix length given, and it
    is the number of one-bits of the netmask. *)
Theorem bitmask_round_trip (ipStr bitmaskStr : string) (b : list Z) (p : Z) :
  ValidInput ipStr bitmaskStr b p ->
  exists ipNet items,
    calculate_parse ipStr bitmaskStr = Ok ipNet
    /\ calculate ipStr bitmaskStr = Ok items
    /\ ones (calculate_subnet ipNet) = p
    /\ onesCount (netmask (calculate_subnet ipNet)) = p
    /\ items !! 1%nat = Some (mkItem "Bitmask" (FormatInt p))
    /\ items !! 2%nat
       = Some (mkItem "Netmask" (IP_String (netmask (calculate_subnet ipNet)))).
Proof.
  intros Hv.
  destruct (valid_subnet _ _ _ _ Hv)
    as (b0 & b1 & b2 & b3 & m0 & m1 & m2 & m3 & -> & Hm & Hb & Hmb & Hs).
  cbv zeta in Hs. destruct Hs as (Hparse & Hcalc & Hones).
  destruct Hv as (_ & _ & Hp).
  do 2 eexists. split; [exact Hparse|]. split; [exact Hcalc|].
  split; [exact Hones|].
  destruct (calculate_subnet_v4 b0 b1 b2 b3 m0 m1 m2 m3) as (_ & Hmask & _).
  cbv zeta in Hmask.
  split; [rewrite Hmask, <- Hm; apply CIDRMask_onesCount, Hp|].
  split; [cbn [calculate_items lookup list_lookup]; rewrite Hones; reflexivity|].
  reflexivity.
Qed.

Lemma bitmask_round_trip_witness :
  exists ipNet items,
    calculate_parse "192.168.1.0" "+24" = Ok ipNet
    /\ calculate "192.168.1.0" "+24" = Ok items
    /\ onesCount (netmask (calculate_subnet ipNet)) = 24
    /\ items !! 1%nat = Some (mkItem "Bitmask" "24").
Proof.
  assert (Hv : ValidInput "192.168.1.0" "+24" [192; 168; 1; 0] 24).
  { split; [reflexivity|]. split; [reflexivity|]. lia. }
  destruct (bitmask_round_trip "192.168.1.0" "+24" [192; 168; 1; 0] 24 Hv)
    as (ipNet & items & Hparse & Hcalc & _ & Hcount & Hitem & _).
  exists ipNet, items. auto.
Defined.

(** C1. On valid input the host range follows the three cases: at 32 both
    ends are the network; at 31 they are the network and the broadcast;
    up to 30 they are the network incremented and the broadcast
    decremented by [incrementIP] and [decrementIP] (the carry and the
    borrow of lemmas [incrementIP_cases] and [decrementIP_cases]), which
    are the network plus one and the broadcast minus one. *)
Theorem host_range_cases (ipStr bitmaskStr : string) (b : list Z) (p : Z) :
  ValidInput ipStr bitmaskStr b p ->
  exists ipNet,
    calculate_parse ipStr bitmaskStr = Ok ipNet
    /\ calculate ipStr bitmaskStr = Ok (calculate_items ipStr (calculate_subnet ipNet))
    /\ let s := calculate_subnet ipNet in
       (p = 32 -> hostmin s = network s /\ hostmax s = network s)
       /\ (p = 31 -> hostmin s = network s /\ hostmax s = broadcast s)
       /\ (p <= 30 ->
           hostmin s = incrementIP (network s)
           /\ hostmax s = decrementIP (broadcast s)
           /\ bigEndian (hostmin s) = bigEndian (network s) + 1
           /\ bigEndian (hostmax s) = bigEndian (broadcast s) - 1).
Proof.
  intros Hv.
  destruct (valid_subnet _ _ _ _ Hv)
    as (b0 & b1 & b2 & b3 & m0 & m1 & m2 & m3 & -> & Hm & Hb & Hmb & Hs).
  cbv zeta in Hs. destruct Hs as (Hparse & Hcalc & Hones).
  destruct Hv as (_ & _ & Hp).
  eexists. split; [exact Hparse|]. split; [exact Hcalc|]. cbv zeta.
  match goal with
  | |- context [calculate_subnet ?n] =>
      destruct (calculate_subnet_hosts n) as (Hmin & Hmax & _)
  end.
  cbv zeta in Hmin, Hmax. rewrite Hones in Hmin, Hmax.
  split; [|split].
  - intros ->. rewrite Hmin, Hmax. split; reflexivity.
  - intros ->. rewrite Hmin, Hmax. split; reflexivity.
  - intros H30.
    replace (p =? 32) with false in * by (symmetry; apply Z.eqb_neq; lia).
    replace (p =? 31) with false in * by (symmetry; apply Z.eqb_neq; lia).
    cbn [orb] in Hmin. rewrite Hmin, Hmax.
    split; [reflexivity|]. split; [reflexivity|].
    destruct (calculate_subnet_v4 b0 b1 b2 b3 m0 m1 m2 m3)
      as (_ & _ & _ & Hn & Hbc).
    cbv zeta in Hn, Hbc. rewrite Hn, Hbc.
    destruct Hb as (Hb0 & Hb1 & Hb2 & Hb3).
    destruct Hmb as (Hm0 & Hm1 & Hm2 & Hm3).
    destruct (last_byte_masked p b3 m0 m1 m2 m3 ltac:(lia) Hm Hb3) as (Hle & _).
    destruct (hosts_last_byte (Z.land b0 m0) (Z.land b1 m1) (Z.land b2 m2) b3 m3
                (Z.lor (Z.land b0 m0) (not8 m0)) (Z.lor (Z.land b1 m1) (not8 m1))
                (Z.lor (Z.land b2 m2) (not8 m2)))
      as (Hinc & Hdec);
      auto using land_isByte, lor_isByte, not8_isByte.
    rewrite Hinc, Hdec, !bigEndian4. split; lia.
Qed.

Lemma host_range_cases_witness :
  exists ipNet,
    calculate_parse "10.0.0.5" "30" = Ok ipNet
    /\ hostmin (calculate_subnet ipNet) = incrementIP (network (calculate_subnet ipNet))
    /\ bigEndian (hostmax (calculate_subnet ipNet))
       = bigEndian (broadcast (calculate_subnet ipNet)) - 1.
Proof.
  assert (Hv : ValidInput "10.0.0.5" "30" [10; 0; 0; 5] 30).
  { split; [reflexivity|]. split; [reflexivity|]. lia. }
  destruct (host_range_cases "10.0.0.5" "30" [10; 0; 0; 5] 30 Hv)
    as (ipNet & Hparse & _ & _ & _ & H30).
  destruct (H30 ltac:(lia)) as (Hmin & _ & _ & Hmax).
  exists ipNet. auto.
Defined.

(** C10. On valid input with a prefix length up to 30 the four addresses
    are in strict order as 32-bit integers, network < hostmin < hostmax <
    broadcast, and the first and the last host keep the network bits:
    masked, each gives the network back. *)
Theorem host_range_order (ipStr bitmaskStr : string) (b : list Z) (p : Z) :
  ValidInput ipStr bitmaskStr b p ->
  p <= 30 ->
  exists ipNet,
    calculate_parse ipStr bitmaskStr = Ok ipNet
    /\ calculate ipStr bitmaskStr = Ok (calculate_items ipStr (calculate_subnet ipNet))
    /\ let s := calculate_subnet ipNet in
       0 <= bigEndian (network s)
       /\ bigEndian (network s) < bigEndian (hostmin s)
       /\ bigEndian (hostmin s) < bigEndian (hostmax s)
       /\ bigEndian (hostmax s) < bigEndian (broadcast s)
       /\ bigEndian (broadcast s) < 2 ^ 32
       /\ bigEndian (broadcast s) = bigEndian (network s) + 2 ^ (32 - p) - 1
       /\ zip_with Z.land (hostmin s) (netmask s) = network s
       /\ zip_with Z.land (hostmax s) (netmask s) = network s.
Proof.
  intros Hv H30.
  destruct (valid_subnet _ _ _ _ Hv)
    as (b0 & b1 & b2 & b3 & m0 & m1 & m2 & m3 & -> & Hm & Hb & Hmb & Hs).
  cbv zeta in Hs. destruct Hs as (Hparse & Hcalc & Hones).
  destruct Hv as (_ & _ & Hp).
  eexists. split; [exact Hparse|]. split; [exact Hcalc|]. cbv zeta.
  match goal with
  | |- context [calculate_subnet ?n] =>
      destruct (calculate_subnet_hosts n) as (Hmin & Hmax & _)
  end.
  cbv zeta in Hmin, Hmax. rewrite Hones in Hmin, Hmax.
  replace (p =? 32) with false in * by (symmetry; apply Z.eqb_neq; lia).
  replace (p =? 31) with false in * by (symmetry; apply Z.eqb_neq; lia).
  cbn [orb] in Hmin. rewrite Hmin, Hmax.
  destruct (calculate_subnet_v4 b0 b1 b2 b3 m0 m1 m2 m3)
    as (_ & Hmask & _ & Hn & Hbc).
  cbv zeta in Hmask, Hn, Hbc. rewrite Hmask, Hn, Hbc.
  destruct Hb as (Hb0 & Hb1 & Hb2 & Hb3).
  destruct Hmb as (Hm0 & Hm1 & Hm2 & Hm3).
  destruct (last_byte_masked p b3 m0 m1 m2 m3 ltac:(lia) Hm Hb3)
    as (Hle & Hlow & Hhigh).
  destruct (hosts_last_byte (Z.land b0 m0) (Z.land b1 m1) (Z.land b2 m2) b3 m3
              (Z.lor (Z.land b0 m0) (not8 m0)) (Z.lor (Z.land b1 m1) (not8 m1))
              (Z.lor (Z.land b2 m2) (not8 m2)))
    as (Hinc & Hdec);
    auto using land_isByte, lor_isByte, not8_isByte.
  rewrite Hinc, Hdec.
  pose proof (wildcard_value p Hp) as Hw. rewrite Hm in Hw.
  cbn [map] in Hw. rewrite bigEndian4 in Hw.
  rewrite !not8_byte in Hw by assumption.
  destruct (broadcast_byte b0 m0 Hb0 Hm0) as (E0 & R0).
  destruct (broadcast_byte b1 m1 Hb1 Hm1) as (E1 & R1).
  destruct (broadcast_byte b2 m2 Hb2 Hm2) as (E2 & R2).
  destruct (broadcast_byte b3 m3 Hb3 Hm3) as (E3 & R3).
  rewrite !bigEndian4.
  unfold isByte in *.
  repeat split; try (rewrite ?E0, ?E1, ?E2, ?E3; lia).
  - cbn [zip_with]. rewrite !land_mask_idem, Hlow. reflexivity.
  - cbn [zip_with]. rewrite !land_lor_not8, Hhigh by (unfold isByte; lia).
    reflexivity.
Qed.

Lemma host_range_order_witness :
  exists ipNet,
    calculate_parse "192.168.1.77" "0" = Ok ipNet
    /\ bigEndian (network (calculate_subnet ipNet))
       < bigEndian (hostmin (calculate_subnet ipNet))
    /\ bigEndian (hostmax (calculate_subnet ipNet))
       < bigEndian (broadcast (calculate_subnet ipNet)).
Proof.
  assert (Hv : ValidInput "192.168.1.77" "0" [192; 168; 1; 77] 0).
  { split; [reflexivity|]. split; [reflexivity|]. lia. }
  destruct (host_range_order "192.168.1.77" "0" [192; 168; 1; 77] 0 Hv ltac:(lia))
    as (ipNet & Hparse & _ & _ & H1 & _ & H3 & _).
  exists ipNet. auto.
Defined.

(** C3, as the code has it.  Given the prefix text 33, [calculate] fails
    with "invalid bitmask" whatever the address text, and so does the
    program on an IPv6 address followed by [/33].  An IPv4 address followed
    by [/33], given as one string, does not get that far: [parseCIDR]
    rejects it with the "invalid CIDR" error. *)
Theorem prefix_33_rejected :
  (forall ipStr, calculate ipStr "33" = Err "invalid bitmask")
  /\ (forall ipStr b,
        ParseAddr ipStr = Some (Addr6 b EmptyString) ->
        runConsoleMode (ipStr ++ "/33") = Err "invalid bitmask")
  /\ (forall ipStr b,
        ParseAddr ipStr = Some (Addr4 b) ->
        runConsoleMode (ipStr ++ "/33")
        = Err ("invalid CIDR: invalid CIDR address: " ++ ipStr ++ "/33")).
Proof.
  split; [|split].
  - intros ipStr. reflexivity.
  - intros ipStr b Ha.
    destruct (runConsoleMode_v6 ipStr "33" b 33 Ha) as (Hrun & _);
      [reflexivity|lia|].
    change (ipStr ++ "/33")%string with (ipStr ++ "/" ++ "33")%string.
    rewrite Hrun. reflexivity.
  - intros ipStr b Ha. unfold runConsoleMode, parseCIDR.
    change (ipStr ++ "/33")%string with (ipStr ++ String "/" "33")%string.
    rewrite Contains_app_slash. cbn [negb].
    change (ipStr ++ String "/" "33")%string with (ipStr ++ "/33")%string.
    rewrite (ParseCIDR_v4_33 _ _ Ha). reflexivity.
Qed.

Lemma prefix_33_rejected_witness :
  calculate "192.168.1.1" "33" = Err "invalid bitmask"
  /\ runConsoleMode "::1/33" = Err "invalid bitmask"
  /\ runConsoleMode "10.0.0.1/33"
     = Err "invalid CIDR: invalid CIDR address: 10.0.0.1/33".
Proof.
  destruct prefix_33_rejected as (Hcalc & Hv6 & Hv4).
  split; [apply Hcalc|]. split.
  - apply (Hv6 "::1" [0; 0; 0; 0; 0; 0; 0; 0; 0; 0; 0; 0; 0; 0; 0; 1]).
    reflexivity.
  - apply (Hv4 "10.0.0.1" [10; 0; 0; 1]). reflexivity.
Defined.

(** C3 as stated fails on the program's input 192.168.1.1/33: the error is
    the one of [parseCIDR], not "invalid bitmask". *)
Lemma prefix_33_ipv4_counterexample :
  runConsoleMode "192.168.1.1/33"
  = Err "invalid CIDR: invalid CIDR address: 192.168.1.1/33"
  /\ runConsoleMode "192.168.1.1/33" <> Err "invalid bitmask".
Proof. split; [vm_compute; reflexivity|vm_compute; discriminate]. Qed.

(** C4, as the code has it.  An IPv6 address with a prefix length from 0
    to 32 fails with "IPv6 is not supported"; with a longer prefix the
    bitmask check comes first and the error is "invalid bitmask".  The
    program gets to [calculate] on every IPv6 CIDR string that
    [net.ParseCIDR] accepts, so both hold for the string as well. *)
Theorem ipv6_rejected (ipStr bitmaskStr : string) (b : list Z) (p : Z) :
  ParseAddr ipStr = Some (Addr6 b EmptyString) ->
  Atoi bitmaskStr = Some p ->
  (0 <= p <= 32 -> calculate ipStr bitmaskStr = Err "IPv6 is not supported")
  /\ (32 < p -> calculate ipStr bitmaskStr = Err "invalid bitmask")
  /\ (dtoi bitmaskStr = (p, String.length bitmaskStr, true) -> p <= 128 ->
      runConsoleMode (ipStr ++ "/" ++ bitmaskStr) = calculate ipStr bitmaskStr).
Proof.
  intros Ha Hn. split; [|split].
  - intros Hp. unfold calculate, calculate_parse. rewrite Hn.
    replace (p <? 0) with false by (symmetry; apply Z.ltb_ge; lia).
    replace (32 <? p) with false by (symmetry; apply Z.ltb_ge; lia).
    cbn [orb]. rewrite (ParseCIDR_v6 _ _ _ Ha Hp). cbn [IPNet_IP].
    rewrite (To4_IP_Mask_v6 b p Hp). reflexivity.
  - intros Hp. unfold calculate, calculate_parse. rewrite Hn.
    replace (32 <? p) with true by (symmetry; apply Z.ltb_lt; lia).
    rewrite orb_true_r. reflexivity.
  - intros Hd Hp. apply (runConsoleMode_v6 ipStr bitmaskStr b p Ha Hd Hp).
Qed.

Lemma ipv6_rejected_witness :
  calculate "::1" "24" = Err "IPv6 is not supported"
  /\ calculate "2001:db8::1" "64" = Err "invalid bitmask"
  /\ runConsoleMode "2001:db8::1/64" = calculate "2001:db8::1" "64".
Proof.
  destruct (ipv6_rejected "::1" "24"
              [0; 0; 0; 0; 0; 0; 0; 0; 0; 0; 0; 0; 0; 0; 0; 1] 24
              eq_refl eq_refl) as (Hlow & _ & _).
  destruct (ipv6_rejected "2001:db8::1" "64"
              [32; 1; 13; 184; 0; 0; 0; 0; 0; 0; 0; 0; 0; 0; 0; 1] 64
              eq_refl eq_refl) as (_ & Hhigh & Hrun).
  split; [apply Hlow; lia|]. split; [apply Hhigh; lia|].
  apply Hrun; [reflexivity|lia].
Defined.

(** C4 as stated fails on its own example: [::1/64] is a valid IPv6 CIDR
    for [net.ParseCIDR], and the error is "invalid bitmask". *)
Lemma ipv6_64_counterexample :
  (exists ip ipNet, ParseCIDR "::1/64" = Ok (ip, ipNet)
                    /\ length (IPNet_IP ipNet) = IPv6len)
  /\ parseCIDR "::1/64" = Ok ("::1", "64")
  /\ calculate "::1" "64" = Err "invalid bitmask"
  /\ runConsoleMode "::1/64" = Err "invalid bitmask"
  /\ runConsoleMode "::1/64" <> Err "IPv6 is not supported".
Proof.
  split; [do 2 eexists; split; vm_compute; reflexivity|].
  repeat split; try (vm_compute; reflexivity). vm_compute. discriminate.
Qed.

(** * Further properties of the calculator *)

(** ** The outcome of calculate

    [calculate] parses the address text together with the prefix length it
    has just validated; what decides is the address text alone. *)

Lemma IndexByteString_Some_app (a r : string) (c : ascii) (i : nat) :
  IndexByteString a c = Some i -> IndexByteString (a ++ r) c = Some i.
Proof.
  revert i. induction a as [|x a IH]; intros i; cbn [IndexByteString append];
    [discriminate|].
  destruct (Ascii.eqb x c); [auto|].
  destruct (IndexByteString a c) as [k|]; [|discriminate].
  rewrite (IH k eq_refl). auto.
Qed.

(** What follows the first separator of [a], when more text is appended. *)
Lemma sliceFrom_Some_app (a r : string) (c : ascii) (i : nat) :
  IndexByteString a c = Some i ->
  sliceFrom (S i) (a ++ r) = (sliceFrom (S i) a ++ r)%string.
Proof.
  revert i. induction a as [|x a IH]; intros i; cbn [IndexByteString];
    [discriminate|].
  destruct (Ascii.eqb x c).
  - intros H. injection H as <-. reflexivity.
  - destruct (IndexByteString a c) as [k|]; [|discriminate].
    intros H. injection H as <-. cbn [append sliceFrom]. apply (IH k eq_refl).
Qed.

Lemma IndexByteString_app_sep (a r : string) (c : ascii) :
  IndexByteString (a ++ String c r) c <> None.
Proof.
  induction a as [|x a IH]; cbn [append IndexByteString].
  - rewrite Ascii.eqb_refl. discriminate.
  - destruct (Ascii.eqb x c); [discriminate|].
    destruct (IndexByteString (a ++ String c r) c); [discriminate|contradiction].
Qed.

(** A mask text that holds a [/] is no prefix length. *)
Lemma ParseCIDR_two_separators (s : string) (i : nat) :
  IndexByteString s "/" = Some i ->
  IndexByteString (sliceFrom (S i) s) "/" <> None ->
  ParseCIDR s = Err ("invalid CIDR address: " ++ s).
Proof.
  intros Hi Hm. unfold ParseCIDR. rewrite Hi.
  destruct (ParseAddr (sliceTo i s)) as [a|]; [|reflexivity].
  destruct (negb (String.eqb (Zone a) EmptyString)); [reflexivity|].
  destruct (dtoi (sliceFrom (S i) s)) as [[n j] ok] eqn:Hd.
  destruct ok; [|reflexivity].
  destruct (Nat.eqb_spec j (String.length (sliceFrom (S i) s))) as [->|];
    [|reflexivity].
  apply dtoi_Atoi in Hd as (_ & _ & Hno). contradiction.
Qed.

Lemma ParseCIDR_compose_bad (ipStr : string) (p : Z) :
  (forall b, ParseAddr ipStr <> Some (Addr4 b)) ->
  (forall b, ParseAddr ipStr <> Some (Addr6 b EmptyString)) ->
  ParseCIDR (ipStr ++ "/" ++ FormatInt p)
  = Err ("invalid CIDR address: " ++ ipStr ++ "/" ++ FormatInt p).
Proof.
  intros H4 H6.
  change (ipStr ++ "/" ++ FormatInt p)%string
    with (ipStr ++ String "/" (FormatInt p))%string.
  destruct (IndexByteString ipStr "/") as [i|] eqn:Hi.
  - apply (ParseCIDR_two_separators _ i).
    + apply IndexByteString_Some_app, Hi.
    + rewrite (sliceFrom_Some_app _ _ _ _ Hi). apply IndexByteString_app_sep.
  - unfold ParseCIDR.
    rewrite (IndexByteString_app _ _ _ Hi), sliceTo_app, sliceFrom_app.
    destruct (ParseAddr ipStr) as [[b|b z]|]; [| |reflexivity].
    + exfalso. apply (H4 b). reflexivity.
    + destruct z as [|z0 z]; [|reflexivity].
      exfalso. apply (H6 b). reflexivity.
Qed.

(** X1. The decision table of [calculate]: "invalid bitmask" when the
    prefix text is no integer from 0 to 32, whatever the address text;
    otherwise the nine items when the address text is an IPv4 address,
    "IPv6 is not supported" when it is an IPv6 address without a zone, and
    "invalid IP address" in every other case. *)
Theorem calculate_outcome (ipStr bitmaskStr : string) :
  calculate ipStr bitmaskStr =
    match Atoi bitmaskStr with
    | None => Err "invalid bitmask"
    | Some p =>
        if (p <? 0) || (32 <? p) then Err "invalid bitmask"
        else
          match ParseAddr ipStr with
          | Some (Addr4 b) =>
              Ok (calculate_items ipStr
                    (calculate_subnet
                       (mkIPNet (zip_with Z.land b (CIDRMask p 32))
                                (CIDRMask p 32))))
          | Some (Addr6 _ EmptyString) => Err "IPv6 is not supported"
          | _ => Err "invalid IP address"
          end
    end.
Proof.
  destruct (Atoi bitmaskStr) as [p|] eqn:Hn;
    [|unfold calculate, calculate_parse; rewrite Hn; reflexivity].
  destruct ((p <? 0) || (32 <? p)) eqn:Hr;
    [unfold calculate, calculate_parse; rewrite Hn, Hr; reflexivity|].
  apply orb_false_elim in Hr as [Hlo Hhi]. apply Z.ltb_ge in Hlo, Hhi.
  destruct (ParseAddr ipStr) as [[b|b z]|] eqn:Ha.
  - unfold calculate.
    rewrite (calculate_parse_valid ipStr bitmaskStr b p); [reflexivity|].
    split; [exact Ha|]. split; [exact Hn|lia].
  - destruct z as [|z0 z].
    + unfold calculate, calculate_parse. rewrite Hn.
      replace (p <? 0) with false by (symmetry; apply Z.ltb_ge; lia).
      replace (32 <? p) with false by (symmetry; apply Z.ltb_ge; lia).
      cbn [orb]. rewrite (ParseCIDR_v6 _ _ _ Ha) by lia. cbn [IPNet_IP].
      rewrite (To4_IP_Mask_v6 b p) by lia. reflexivity.
    + unfold calculate, calculate_parse. rewrite Hn.
      replace (p <? 0) with false by (symmetry; apply Z.ltb_ge; lia).
      replace (32 <? p) with false by (symmetry; apply Z.ltb_ge; lia).
      cbn [orb]. rewrite ParseCIDR_compose_bad; [reflexivity| |];
        intros b' Hb'; rewrite Ha in Hb'; discriminate.
  - unfold calculate, calculate_parse. rewrite Hn.
    replace (p <? 0) with false by (symmetry; apply Z.ltb_ge; lia).
    replace (32 <? p) with false by (symmetry; apply Z.ltb_ge; lia).
    cbn [orb]. rewrite ParseCIDR_compose_bad; [reflexivity| |];
      intros b' Hb'; rewrite Ha in Hb'; discriminate.
Qed.

(** ** The outcome of runConsoleMode *)

Lemma Contains_IndexByteString (s : string) :
  Contains s "/" = match IndexByteString s "/" with
                   | Some _ => true
                   | None => false
                   end.
Proof.
  induction s as [|x r IH]; [reflexivity|].
  cbn [Contains HasPrefix IndexByteString].
  destruct (Ascii.eqb x "/"); cbn [andb orb].
  - destruct r; reflexivity.
  - rewrite IH. destruct (IndexByteString r "/"); reflexivity.
Qed.

Lemma IndexByteString_Some_split (s : string) (c : ascii) (i : nat) :
  IndexByteString s c = Some i ->
  s = (sliceTo i s ++ String c (sliceFrom (S i) s))%string
  /\ IndexByteString (sliceTo i s) c = None.
Proof.
  revert i. induction s as [|x r IH]; intros i; cbn [IndexByteString];
    [discriminate|].
  destruct (Ascii.eqb_spec x c) as [->|Hx].
  - intros H. injection H as <-. split; reflexivity.
  - destruct (IndexByteString r c) as [k|]; [|discriminate].
    intros H. injection H as <-. destruct (IH k eq_refl) as (E & Hno).
    cbn [sliceTo sliceFrom append IndexByteString]. split.
    + f_equal. exact E.
    + destruct (Ascii.eqb_spec x c); [contradiction|]. rewrite Hno. reflexivity.
Qed.

(** The program on [ipStr/m], where [ipStr] holds no [/]. *)
Lemma runConsoleMode_parts (ipStr m : string) :
  IndexByteString ipStr "/" = None ->
  runConsoleMode (ipStr ++ String "/" m) =
    let bad := Err ("invalid CIDR: invalid CIDR address: "
                    ++ ipStr ++ String "/" m) in
    let '(n, j, ok) := dtoi m in
    if ok && (j =? String.length m)%nat then
      match ParseAddr ipStr with
      | Some (Addr4 b) =>
          if n <=? 32 then
            Ok (calculate_items ipStr
                  (calculate_subnet
                     (mkIPNet (zip_with Z.land b (CIDRMask n 32))
                              (CIDRMask n 32))))
          else bad
      | Some (Addr6 _ EmptyString) =>
          if n <=? 32 then Err "IPv6 is not supported"
          else if n <=? 128 then Err "invalid bitmask"
          else bad
      | _ => bad
      end
    else bad.
Proof.
  intros Hno. cbv zeta. unfold runConsoleMode, parseCIDR.
  rewrite Contains_app_slash. cbn [negb]. unfold ParseCIDR.
  rewrite (IndexByteString_app _ _ _ Hno), sliceTo_app, sliceFrom_app.
  destruct (dtoi m) as [[n j] ok] eqn:Hd.
  destruct ok; cbn [andb negb orb];
    [|destruct (ParseAddr ipStr) as [a|]; [|reflexivity];
      destruct (negb _); reflexivity].
  destruct (Nat.eqb_spec j (String.length m)) as [->|Hj]; cbn [negb orb];
    [|destruct (ParseAddr ipStr) as [a|]; [|reflexivity];
      destruct (negb _); reflexivity].
  destruct (dtoi_Atoi m n Hd) as (Hatoi & Hn & Hm).
  replace (n <? 0) with false by (symmetry; apply Z.ltb_ge; lia).
  cbn [orb].
  destruct (ParseAddr ipStr) as [[b|b z]|] eqn:Ha; [| |reflexivity].
  - cbn [Zone String.eqb negb BitLen].
    destruct (Z.leb_spec n 32) as [Hle|Hgt].
    + replace (32 <? n) with false by (symmetry; apply Z.ltb_ge; lia).
      unfold Split. rewrite (Split_from_app _ _ _ Hno), (Split_from_no_sep _ _ Hm).
      cbn [nth append]. rewrite calculate_outcome, Hatoi, Ha.
      replace (n <? 0) with false by (symmetry; apply Z.ltb_ge; lia).
      replace (32 <? n) with false by (symmetry; apply Z.ltb_ge; lia).
      reflexivity.
    + replace (32 <? n) with true by (symmetry; apply Z.ltb_lt; lia).
      reflexivity.
  - destruct z as [|z0 z]; [|reflexivity].
    cbn [Zone String.eqb negb BitLen].
    destruct (Z.leb_spec n 128) as [Hle|Hgt].
    + replace (128 <? n) with false by (symmetry; apply Z.ltb_ge; lia).
      unfold Split. rewrite (Split_from_app _ _ _ Hno), (Split_from_no_sep _ _ Hm).
      cbn [nth append]. rewrite calculate_outcome, Hatoi, Ha.
      replace (n <? 0) with false by (symmetry; apply Z.ltb_ge; lia).
      cbn [orb].
      destruct (Z.leb_spec n 32).
      * replace (32 <? n) with false by (symmetry; apply Z.ltb_ge; lia).
        reflexivity.
      * replace (32 <? n) with true by (symmetry; apply Z.ltb_lt; lia).
        reflexivity.
    + replace (128 <? n) with true by (symmetry; apply Z.ltb_lt; lia).
      destruct (Z.leb_spec n 32); [lia|]. reflexivity.
Qed.

(** X2. The decision table of the program.  Without a [/] the error is
    "invalid CIDR format".  Otherwise the text before the first [/] is the
    address and the text after it the prefix length: a run of digits, at
    most 32 behind an IPv4 address, gives the nine items; at most 32 behind
    an IPv6 address gives "IPv6 is not supported", from 33 to 128 "invalid
    bitmask"; everything else is the "invalid CIDR" error with the input
    in it. *)
Theorem runConsoleMode_outcome (cidr : string) :
  runConsoleMode cidr =
    match IndexByteString cidr "/" with
    | None => Err "invalid CIDR format"
    | Some i =>
        let ipStr := sliceTo i cidr in
        let m := sliceFrom (S i) cidr in
        let bad := Err ("invalid CIDR: invalid CIDR address: " ++ cidr) in
        let '(n, j, ok) := dtoi m in
        if ok && (j =? String.length m)%nat then
          match ParseAddr ipStr with
          | Some (Addr4 b) =>
              if n <=? 32 then
                Ok (calculate_items ipStr
                      (calculate_subnet
                         (mkIPNet (zip_with Z.land b (CIDRMask n 32))
                                  (CIDRMask n 32))))
              else bad
          | Some (Addr6 _ EmptyString) =>
              if n <=? 32 then Err "IPv6 is not supported"
              else if n <=? 128 then Err "invalid bitmask"
              else bad
          | _ => bad
          end
        else bad
    end.
Proof.
  destruct (IndexByteString cidr "/") as [i|] eqn:Hi.
  - destruct (IndexByteString_Some_split _ _ _ Hi) as (E & Hno).
    cbv zeta. remember (sliceTo i cidr) as ipStr eqn:HipStr.
    remember (sliceFrom (S i) cidr) as m eqn:Hm.
    clear HipStr Hm Hi. subst cidr.
    apply (runConsoleMode_parts ipStr m Hno).
  - unfold runConsoleMode, parseCIDR.
    rewrite Contains_IndexByteString, Hi. reflexivity.
Qed.

(** X3. The program never fails with "invalid IP address": an address
    text that [parseCIDR] lets through parses again in [calculate]. *)
Theorem runConsoleMode_never_invalid_IP (cidr : string) :
  runConsoleMode cidr <> Err "invalid IP address".
Proof.
  rewrite runConsoleMode_outcome.
  destruct (IndexByteString cidr "/") as [i|]; [|discriminate].
  cbv zeta. destruct (dtoi (sliceFrom (S i) cidr)) as [[n j] ok].
  destruct (ok && _); [|cbn [append]; discriminate].
  destruct (ParseAddr (sliceTo i cidr)) as [[b|b [|z0 z]]|];
    repeat match goal with
           | |- context [if ?c then _ else _] => destruct c
           end;
    cbn [append]; discriminate.
Qed.

(** ** incrementIP and decrementIP on a slice of any length

    The loops are written for any [net.IP]; on [pre ++ [x]] they touch the
    last byte and go on into [pre] only when it wraps. *)

Section AnyLength.
Local Open Scope list_scope.

Lemma insert_middle (pre suf : list Z) (x v : Z) :
  <[length pre := v]> (pre ++ x :: suf) = pre ++ v :: suf.
Proof.
  rewrite insert_app_r_alt by lia. rewrite Nat.sub_diag. reflexivity.
Qed.

Lemma incrementIP_loop_app (pre : list Z) :
  forall suf,
    incrementIP_loop (length pre) (pre ++ suf)
    = incrementIP_loop (length pre) pre ++ suf.
Proof.
  induction pre as [|x pre IH] using rev_ind; intros suf; [reflexivity|].
  rewrite length_app, Nat.add_1_r, <- app_assoc. cbn [app incrementIP_loop]. unfold IP.
  rewrite !list_lookup_total_middle by reflexivity.
  rewrite !insert_middle, !list_lookup_total_middle by reflexivity.
  destruct (Z.eqb_spec (wrap8 (x + 1)) 0) as [->|]; cbn [negb].
  - rewrite (IH (0 :: suf)), (IH [0]), <- app_assoc. reflexivity.
  - rewrite <- app_assoc. reflexivity.
Qed.

Lemma decrementIP_loop_app (pre : list Z) :
  forall suf,
    decrementIP_loop (length pre) (pre ++ suf)
    = decrementIP_loop (length pre) pre ++ suf.
Proof.
  induction pre as [|x pre IH] using rev_ind; intros suf; [reflexivity|].
  rewrite length_app, Nat.add_1_r, <- app_assoc. cbn [app decrementIP_loop]. unfold IP.
  rewrite !list_lookup_total_middle by reflexivity.
  rewrite !insert_middle, !list_lookup_total_middle by reflexivity.
  destruct (Z.eqb_spec (wrap8 (x - 1)) 255) as [->|]; cbn [negb].
  - rewrite (IH (255 :: suf)), (IH [255]), <- app_assoc. reflexivity.
  - rewrite <- app_assoc. reflexivity.
Qed.

Lemma incrementIP_snoc (pre : list Z) (x : Z) :
  isByte x ->
  incrementIP (pre ++ [x])
  = if x <? 255 then pre ++ [x + 1] else incrementIP pre ++ [0].
Proof.
  intros Hx. unfold incrementIP. rewrite length_app, Nat.add_1_r.
  cbn [incrementIP_loop]. unfold IP.
  rewrite !list_lookup_total_middle by reflexivity.
  rewrite !insert_middle, !list_lookup_total_middle by reflexivity.
  rewrite (wrap8_inc x Hx). destruct (Z.ltb_spec x 255).
  - rewrite (proj2 (Z.eqb_neq (x + 1) 0)) by (unfold isByte in Hx; lia).
    reflexivity.
  - cbn [Z.eqb negb]. apply incrementIP_loop_app.
Qed.

Lemma decrementIP_snoc (pre : list Z) (x : Z) :
  isByte x ->
  decrementIP (pre ++ [x])
  = if 0 <? x then pre ++ [x - 1] else decrementIP pre ++ [255].
Proof.
  intros Hx. unfold decrementIP. rewrite length_app, Nat.add_1_r.
  cbn [decrementIP_loop]. unfold IP.
  rewrite !list_lookup_total_middle by reflexivity.
  rewrite !insert_middle, !list_lookup_total_middle by reflexivity.
  rewrite (wrap8_dec x Hx). destruct (Z.ltb_spec 0 x).
  - rewrite (proj2 (Z.eqb_neq (x - 1) 255)) by (unfold isByte in Hx; lia).
    reflexivity.
  - cbn [Z.eqb negb]. apply decrementIP_loop_app.
Qed.

Lemma bigEndian_snoc (pre : list Z) (x : Z) :
  bigEndian (pre ++ [x]) = bigEndian pre * 256 + x.
Proof. unfold bigEndian. rewrite fold_left_app. reflexivity. Qed.

Lemma bigEndian_range (ip : list Z) :
  Forall isByte ip -> 0 <= bigEndian ip < 256 ^ Z.of_nat (length ip).
Proof.
  induction ip as [|x ip IH] using rev_ind; intros Hb; [cbn; lia|].
  apply Forall_app in Hb as [Hip Hx]. apply Forall_cons in Hx as [Hx _].
  specialize (IH Hip). rewrite bigEndian_snoc, length_app, Nat.add_1_r.
  rewrite Nat2Z.inj_succ, Z.pow_succ_r by lia. unfold isByte in Hx. lia.
Qed.

Lemma incrementIP_shape (ip : list Z) :
  Forall isByte ip ->
  length (incrementIP ip) = length ip /\ Forall isByte (incrementIP ip).
Proof.
  induction ip as [|x ip IH] using rev_ind; intros Hb; [split; [reflexivity|constructor]|].
  apply Forall_app in Hb as [Hip Hx]. apply Forall_cons in Hx as [Hx _].
  destruct (IH Hip) as (Hlen & Hbytes). rewrite incrementIP_snoc by exact Hx.
  destruct (Z.ltb_spec x 255); rewrite !length_app; cbn [length].
  - split; [reflexivity|]. apply Forall_app. split; [exact Hip|].
    apply Forall_cons_2; [unfold isByte in *; lia|constructor].
  - split; [rewrite Hlen; reflexivity|]. apply Forall_app. split; [exact Hbytes|].
    apply Forall_cons_2; [unfold isByte; lia|constructor].
Qed.

Lemma decrementIP_shape (ip : list Z) :
  Forall isByte ip ->
  length (decrementIP ip) = length ip /\ Forall isByte (decrementIP ip).
Proof.
  induction ip as [|x ip IH] using rev_ind; intros Hb; [split; [reflexivity|constructor]|].
  apply Forall_app in Hb as [Hip Hx]. apply Forall_cons in Hx as [Hx _].
  destruct (IH Hip) as (Hlen & Hbytes). rewrite decrementIP_snoc by exact Hx.
  destruct (Z.ltb_spec 0 x); rewrite !length_app; cbn [length].
  - split; [reflexivity|]. apply Forall_app. split; [exact Hip|].
    apply Forall_cons_2; [unfold isByte in *; lia|constructor].
  - split; [rewrite Hlen; reflexivity|]. apply Forall_app. split; [exact Hbytes|].
    apply Forall_cons_2; [unfold isByte; lia|constructor].
Qed.

Lemma incrementIP_bigEndian (ip : list Z) :
  Forall isByte ip ->
  bigEndian (incrementIP ip) = (bigEndian ip + 1) mod 256 ^ Z.of_nat (length ip).
Proof.
  induction ip as [|x ip IH] using rev_ind; intros Hb; [reflexivity|].
  apply Forall_app in Hb as [Hip Hx]. apply Forall_cons in Hx as [Hx _].
  pose proof (bigEndian_range ip Hip) as Hr.
  rewrite incrementIP_snoc by exact Hx.
  rewrite length_app, Nat.add_1_r, Nat2Z.inj_succ, Z.pow_succ_r by lia.
  destruct (Z.ltb_spec x 255).
  - rewrite !bigEndian_snoc. rewrite Z.mod_small; [lia|].
    unfold isByte in Hx. nia.
  - rewrite !bigEndian_snoc, (IH Hip).
    replace x with 255 by (unfold isByte in Hx; lia).
    replace (bigEndian ip * 256 + 255 + 1) with ((bigEndian ip + 1) * 256) by lia.
    rewrite (Z.mul_comm 256), Z.mul_mod_distr_r by lia. lia.
Qed.

Lemma decrementIP_bigEndian (ip : list Z) :
  Forall isByte ip ->
  bigEndian (decrementIP ip) = (bigEndian ip - 1) mod 256 ^ Z.of_nat (length ip).
Proof.
  induction ip as [|x ip IH] using rev_ind; intros Hb; [reflexivity|].
  apply Forall_app in Hb as [Hip Hx]. apply Forall_cons in Hx as [Hx _].
  pose proof (bigEndian_range ip Hip) as Hr.
  rewrite decrementIP_snoc by exact Hx.
  rewrite length_app, Nat.add_1_r, Nat2Z.inj_succ, Z.pow_succ_r by lia.
  destruct (Z.ltb_spec 0 x).
  - rewrite !bigEndian_snoc. rewrite Z.mod_small; [lia|].
    unfold isByte in Hx. nia.
  - rewrite !bigEndian_snoc, (IH Hip).
    replace x with 0 by (unfold isByte in Hx; lia).
    replace (bigEndian ip * 256 + 0 - 1) with ((bigEndian ip - 1) * 256 + 255) by lia.
    set (M := 256 ^ Z.of_nat (length ip)) in *.
    assert (HM : 0 < M) by lia.
    pose proof (Z.mod_pos_bound (bigEndian ip - 1) M HM) as Hb1.
    pose proof (Z.div_mod (bigEndian ip - 1) M ltac:(lia)) as Hdm.
    apply (Z.mod_unique _ _ ((bigEndian ip - 1) / M)); [left; lia|].
    nia.
Qed.

Lemma decrementIP_incrementIP_any (ip : list Z) :
  Forall isByte ip -> decrementIP (incrementIP ip) = ip.
Proof.
  induction ip as [|x ip IH] using rev_ind; intros Hb; [reflexivity|].
  apply Forall_app in Hb as [Hip Hx]. apply Forall_cons in Hx as [Hx _].
  rewrite incrementIP_snoc by exact Hx. destruct (Z.ltb_spec x 255).
  - rewrite decrementIP_snoc by (unfold isByte in *; lia).
    destruct (Z.ltb_spec 0 (x + 1)); [|unfold isByte in Hx; lia].
    replace (x + 1 - 1) with x by lia. reflexivity.
  - rewrite decrementIP_snoc by (unfold isByte; lia).
    cbn [Z.ltb Z.compare]. rewrite (IH Hip).
    replace x with 255 by (unfold isByte in Hx; lia). reflexivity.
Qed.

Lemma incrementIP_decrementIP_any (ip : list Z) :
  Forall isByte ip -> incrementIP (decrementIP ip) = ip.
Proof.
  induction ip as [|x ip IH] using rev_ind; intros Hb; [reflexivity|].
  apply Forall_app in Hb as [Hip Hx]. apply Forall_cons in Hx as [Hx _].
  rewrite decrementIP_snoc by exact Hx. destruct (Z.ltb_spec 0 x).
  - rewrite incrementIP_snoc by (unfold isByte in *; lia).
    destruct (Z.ltb_spec (x - 1) 255); [|unfold isByte in Hx; lia].
    replace (x - 1 + 1) with x by lia. reflexivity.
  - rewrite incrementIP_snoc by (unfold isByte; lia).
    cbn [Z.ltb Z.compare]. rewrite (IH Hip).
    replace x with 0 by (unfold isByte in Hx; lia). reflexivity.
Qed.

(** X4. On a slice of bytes of any length [n], [incrementIP] adds one and
    [decrementIP] subtracts one modulo 256^n: the length stays, the bytes
    stay bytes, the slice of all 255 wraps to all 0 and back, and each
    function undoes the other.  The empty slice is left as it is. *)
Theorem incrementIP_decrementIP_any_length (ip : IP) :
  Forall isByte ip ->
  (length (incrementIP ip) = length ip /\ Forall isByte (incrementIP ip)
   /\ bigEndian (incrementIP ip)
      = (bigEndian ip + 1) mod 256 ^ Z.of_nat (length ip))
  /\ (length (decrementIP ip) = length ip /\ Forall isByte (decrementIP ip)
      /\ bigEndian (decrementIP ip)
         = (bigEndian ip - 1) mod 256 ^ Z.of_nat (length ip))
  /\ decrementIP (incrementIP ip) = ip
  /\ incrementIP (decrementIP ip) = ip.
Proof.
  intros Hb.
  destruct (incrementIP_shape ip Hb) as (Hil & Hib).
  destruct (decrementIP_shape ip Hb) as (Hdl & Hdb).
  repeat split; auto using incrementIP_bigEndian, decrementIP_bigEndian,
    decrementIP_incrementIP_any, incrementIP_decrementIP_any.
Qed.

Lemma incrementIP_decrementIP_any_length_witness :
  incrementIP [0; 255; 255; 255; 255; 255] = [1; 0; 0; 0; 0; 0]
  /\ bigEndian (decrementIP [0; 0]) = 65535
  /\ decrementIP (incrementIP [7; 255]) = [7; 255].
Proof.
  assert (H1 : Forall isByte [0; 0])
    by (repeat (apply Forall_cons_2; [unfold isByte; lia|]); constructor).
  assert (H2 : Forall isByte [7; 255])
    by (repeat (apply Forall_cons_2; [unfold isByte; lia|]); constructor).
  destruct (incrementIP_decrementIP_any_length [0; 0] H1)
    as (_ & (_ & _ & Hdec) & _).
  destruct (incrementIP_decrementIP_any_length [7; 255] H2)
    as (_ & _ & Hinv & _).
  split; [reflexivity|]. split; [rewrite Hdec; reflexivity|exact Hinv].
Defined.

End AnyLength.

(** ** The text of an address, read back

    [net.IP.String] on four bytes writes what [netip.ParseAddr] reads as the
    same four bytes: the decimal text of a byte is one to three digits
    without a leading zero. *)

Lemma FormatInt_byte (a : Z) :
  isByte a ->
  digitsValue (FormatInt a) 0 = Some a
  /\ ((String.length (FormatInt a) =? 1)%nat
      || negb (startsWith (FormatInt a) "0")) = true
  /\ (1 <=? String.length (FormatInt a))%nat = true.
Proof.
  intros Ha.
  pose proof (forallb_Zrange
                (fun a =>
                   match digitsValue (FormatInt a) 0 with
                   | Some w => w =? a
                   | None => false
                   end
                   && ((String.length (FormatInt a) =? 1)%nat
                       || negb (startsWith (FormatInt a) "0"))
                   && (1 <=? String.length (FormatInt a))%nat)
                256 ltac:(vm_compute; reflexivity) a Ha) as H.
  cbv beta in H. apply andb_true_iff in H as [H H3].
  apply andb_true_iff in H as [H1 H2].
  destruct (digitsValue (FormatInt a) 0) as [w|]; [|discriminate H1].
  apply Z.eqb_eq in H1. subst w. auto.
Qed.

Lemma isDigit_code (c : ascii) : isDigit c = true -> 0 <= code c - 48 <= 9.
Proof.
  unfold isDigit. intros H. apply andb_true_iff in H as [Hlo Hhi].
  apply Z.leb_le in Hlo, Hhi. lia.
Qed.

Lemma digitsValue_mono (ds : string) :
  forall v w, 0 <= v -> digitsValue ds v = Some w -> v <= w.
Proof.
  induction ds as [|c ds IH]; cbn [digitsValue]; intros v w Hv Hd.
  - injection Hd as <-. lia.
  - destruct (isDigit c) eqn:Hc; [|discriminate].
    pose proof (isDigit_code c Hc). apply IH in Hd; lia.
Qed.

(** The parser over a run of digits: the value grows, and the test for a
    leading zero passes as long as the run does not go on after a first
    [0]. *)
Lemma parseIPv4Fields_loop_digits (ds : string) :
  forall r atStart v dl pos fields w,
    digitsValue ds v = Some w -> w <= 255 -> 0 <= v -> 0 <= dl ->
    (1 <= v \/ (dl = 0 /\ ((String.length ds =? 1)%nat
                           || negb (startsWith ds "0")) = true)) ->
    parseIPv4Fields_loop (ds ++ r) atStart v pos dl fields
    = parseIPv4Fields_loop r
        (match ds with EmptyString => atStart | String _ _ => false end)
        w pos (dl + Z.of_nat (String.length ds)) fields.
Proof.
  induction ds as [|c ds IH]; intros r atStart v dl pos fields w Hd Hw Hv Hdl Hlead.
  - cbn [digitsValue] in Hd. injection Hd as <-.
    cbn [append String.length]. rewrite Z.add_0_r. reflexivity.
  - cbn [digitsValue] in Hd. destruct (isDigit c) eqn:Hc; [|discriminate].
    pose proof (isDigit_code c Hc) as Hcode.
    assert (Hv' : 0 <= v * 10 + (code c - 48)) by lia.
    pose proof (digitsValue_mono _ _ _ Hv' Hd) as Hmono.
    cbn [append parseIPv4Fields_loop]. rewrite Hc.
    assert (Hzero : (dl =? 1) && (v =? 0) = false).
    { destruct Hlead as [H1|[-> _]]; [|reflexivity].
      rewrite (proj2 (Z.eqb_neq v 0)) by lia. apply andb_false_r. }
    rewrite Hzero.
    replace (255 <? v * 10 + (code c - 48)) with false
      by (symmetry; apply Z.ltb_ge; lia).
    destruct ds as [|c' ds'].
    + cbn [digitsValue] in Hd. injection Hd as <-.
      cbn [append String.length]. f_equal; lia.
    + rewrite (IH r false (v * 10 + (code c - 48)) (dl + 1) pos fields w Hd Hw);
        try lia.
      * f_equal; cbn [String.length]; lia.
      * left. destruct Hlead as [H1|[_ Hl]]; [lia|].
        cbn [String.length Nat.eqb orb startsWith] in Hl.
        apply negb_true_iff in Hl.
        destruct (Ascii.eqb_spec c "0") as [->|Hne]; [discriminate Hl|].
        assert (code c <> 48).
        { intros E. apply Hne. unfold code in E.
          rewrite <- (ascii_N_embedding c). 
          replace (N_of_ascii c) with 48%N by lia. reflexivity. }
        lia.
Qed.

Lemma ParseAddr_scan_digits (ds : string) :
  forall s r v w,
    digitsValue ds v = Some w ->
    ParseAddr_scan s (ds ++ String "." r)
    = match parseIPv4 s with
      | Some b => Some (Addr4 b)
      | None => None
      end.
Proof.
  induction ds as [|c ds IH]; intros s r v w Hd; [reflexivity|].
  cbn [digitsValue] in Hd. destruct (isDigit c) eqn:Hc; [|discriminate].
  cbn [append ParseAddr_scan].
  destruct (Ascii.eqb_spec c ".") as [->|]; [discriminate Hc|].
  destruct (Ascii.eqb_spec c ":") as [->|]; [discriminate Hc|].
  destruct (Ascii.eqb_spec c "%") as [->|]; [discriminate Hc|].
  apply (IH s r _ w Hd).
Qed.

Lemma parseIPv4Fields_loop_dot (s r : string) (v : Z) (pos : nat)
    (dl : Z) (fields : list Z) :
  (1 <=? String.length s)%nat = true -> (pos =? 3)%nat = false ->
  parseIPv4Fields_loop (String "." (s ++ r)) false v pos dl fields
  = parseIPv4Fields_loop (s ++ r) true 0 (S pos) 0
      (<[pos := wrap8 v]> fields).
Proof.
  intros Hs Hpos. destruct s as [|c s]; [discriminate Hs|].
  cbn [append parseIPv4Fields_loop]. rewrite Hpos. reflexivity.
Qed.

(** Four decimal octets, each one to three digits without a leading zero
    and at most 255, joined by dots, are an IPv4 address. *)
Lemma ParseAddr_dotted (sa sb sc sd : string) (a b c d : Z) :
  let octet s x :=
    digitsValue s 0 = Some x /\ x <= 255
    /\ ((String.length s =? 1)%nat || negb (startsWith s "0")) = true
    /\ (1 <=? String.length s)%nat = true in
  octet sa a -> octet sb b -> octet sc c -> octet sd d ->
  ParseAddr (sa ++ String "." (sb ++ String "." (sc ++ String "." sd)))
  = Some (Addr4 [a; b; c; d]).
Proof.
  cbv zeta. intros (Va & Ba & La & Na) (Vb & Bb & Lb & Nb)
                   (Vc & Bc & Lc & Nc) (Vd & Bd & Ld & Nd).
  pose proof (digitsValue_mono _ _ _ (Z.le_refl 0) Va) as Pa.
  pose proof (digitsValue_mono _ _ _ (Z.le_refl 0) Vb) as Pb.
  pose proof (digitsValue_mono _ _ _ (Z.le_refl 0) Vc) as Pc.
  pose proof (digitsValue_mono _ _ _ (Z.le_refl 0) Vd) as Pd.
  unfold ParseAddr. rewrite (ParseAddr_scan_digits sa _ _ 0 a Va).
  unfold parseIPv4, parseIPv4Fields.
  rewrite <- (append_nil_r sd).
  rewrite (parseIPv4Fields_loop_digits sa _ _ 0 0 _ _ a Va) by (auto; lia).
  destruct sa as [|? ?]; [discriminate Na|].
  rewrite (parseIPv4Fields_loop_dot sb) by (exact Nb || reflexivity).
  rewrite (parseIPv4Fields_loop_digits sb _ _ 0 0 _ _ b Vb) by (auto; lia).
  destruct sb as [|? ?]; [discriminate Nb|].
  rewrite (parseIPv4Fields_loop_dot sc) by (exact Nc || reflexivity).
  rewrite (parseIPv4Fields_loop_digits sc _ _ 0 0 _ _ c Vc) by (auto; lia).
  destruct sc as [|? ?]; [discriminate Nc|].
  rewrite (parseIPv4Fields_loop_dot sd) by (exact Nd || reflexivity).
  rewrite (parseIPv4Fields_loop_digits sd _ _ 0 0 _ _ d Vd) by (auto; lia).
  cbn [parseIPv4Fields_loop Nat.ltb Nat.leb insert list_insert].
  unfold wrap8. rewrite !Z.mod_small by lia. reflexivity.
Qed.

Lemma ParseAddr_IP_String (a b c d : Z) :
  isByte a -> isByte b -> isByte c -> isByte d ->
  ParseAddr (IP_String [a; b; c; d]) = Some (Addr4 [a; b; c; d]).
Proof.
  intros Ha Hb Hc Hd.
  change (IP_String [a; b; c; d])
    with (FormatInt a ++ String "." (FormatInt b ++ String "."
            (FormatInt c ++ String "." (FormatInt d))))%string.
  destruct (FormatInt_byte a Ha) as (Va & La & Na).
  destruct (FormatInt_byte b Hb) as (Vb & Lb & Nb).
  destruct (FormatInt_byte c Hc) as (Vc & Lc & Nc).
  destruct (FormatInt_byte d Hd) as (Vd & Ld & Nd).
  unfold isByte in *. apply ParseAddr_dotted; repeat split; auto; lia.
Qed.

(** ** The subnet as 32-bit integers *)

Lemma valid_calculate (ipStr bitmaskStr : string) (b : list Z) (p : Z) :
  ValidInput ipStr bitmaskStr b p ->
  calculate ipStr bitmaskStr = Ok (calculate_items ipStr (subnetOf b p)).
Proof.
  intros Hv. unfold calculate.
  rewrite (calculate_parse_valid _ _ _ _ Hv). reflexivity.
Qed.

Lemma valid_bytes (ipStr bitmaskStr : string) (b : list Z) (p : Z) :
  ValidInput ipStr bitmaskStr b p ->
  0 <= p <= 32
  /\ exists b0 b1 b2 b3,
       b = [b0; b1; b2; b3]
       /\ isByte b0 /\ isByte b1 /\ isByte b2 /\ isByte b3.
Proof.
  intros (Ha & _ & Hp). split; [exact Hp|].
  destruct (ParseAddr_Addr4 _ _ Ha) as (_ & Hlen & Hb).
  list4 b Hlen. exists b0, b1, b2, b3. split; [reflexivity|].
  apply Forall4, Hb.
Qed.

(** The fields of the subnet of four address bytes. *)
Lemma subnetOf_fields (b0 b1 b2 b3 p : Z) :
  0 <= p <= 32 ->
  exists m0 m1 m2 m3,
    CIDRMask p 32 = [m0; m1; m2; m3]
    /\ (isByte m0 /\ isByte m1 /\ isByte m2 /\ isByte m3)
    /\ let s := subnetOf [b0; b1; b2; b3] p in
       ones s = p
       /\ netmask s = [m0; m1; m2; m3]
       /\ wildcardIP s = [not8 m0; not8 m1; not8 m2; not8 m3]
       /\ network s = [Z.land b0 m0; Z.land b1 m1; Z.land b2 m2; Z.land b3 m3]
       /\ broadcast s
          = [Z.lor (Z.land b0 m0) (not8 m0); Z.lor (Z.land b1 m1) (not8 m1);
             Z.lor (Z.land b2 m2) (not8 m2); Z.lor (Z.land b3 m3) (not8 m3)].
Proof.
  intros Hp. unfold subnetOf.
  pose proof (CIDRMask_length p Hp) as Hm.
  pose proof (CIDRMask_bytes p Hp) as Hmb.
  pose proof (CIDRMask_Size p Hp) as Hsize.
  destruct (CIDRMask p 32) as [|m0 [|m1 [|m2 [|m3 [|? ?]]]]]; try discriminate Hm.
  exists m0, m1, m2, m3. split; [reflexivity|]. split; [apply Forall4, Hmb|].
  destruct (calculate_subnet_v4 b0 b1 b2 b3 m0 m1 m2 m3)
    as (Hones & Hrest).
  cbv zeta in *. rewrite Hones, Hsize. split; [reflexivity|exact Hrest].
Qed.

Lemma CIDRMask_value (p : Z) :
  0 <= p <= 32 -> bigEndian (CIDRMask p 32) = 2 ^ 32 - 2 ^ (32 - p).
Proof. revert p. by_prefix. Qed.

(** Under the mask of the [32 - k] high bits an integer below 2^32 loses
    its [k] low bits. *)
Lemma land_high_mask (A k : Z) :
  0 <= k <= 32 -> 0 <= A < 2 ^ 32 ->
  Z.land A (2 ^ 32 - 2 ^ k) = A - A mod 2 ^ k.
Proof.
  intros Hk HA.
  assert (HM : 2 ^ 32 - 2 ^ k = Z.shiftl (Z.ones (32 - k)) k).
  { rewrite Z.shiftl_mul_pow2, Z.ones_equiv by lia.
    replace (2 ^ 32) with (2 ^ (32 - k) * 2 ^ k)
      by (rewrite <- Z.pow_add_r by lia; f_equal; lia).
    lia. }
  assert (HR : A - A mod 2 ^ k = Z.shiftl (Z.shiftr A k) k).
  { rewrite Z.shiftl_mul_pow2, Z.shiftr_div_pow2 by lia.
    pose proof (Z.div_mod A (2 ^ k) ltac:(lia)). lia. }
  rewrite HM, HR. apply Z.bits_inj'. intros i Hi.
  rewrite Z.land_spec, !Z.shiftl_spec by lia.
  destruct (Z.lt_ge_cases i k) as [Hlt|Hge].
  - rewrite !(Z.testbit_neg_r _ (i - k)) by lia. apply andb_false_r.
  - rewrite Z.shiftr_spec by lia. replace (i - k + k) with i by lia.
    destruct (Z.lt_ge_cases i 32) as [H32|H32].
    + rewrite Z.ones_spec_low by lia. apply andb_true_r.
    + rewrite Z.ones_spec_high by lia. rewrite andb_false_r.
      symmetry. rewrite <- (Z.mod_small A (2 ^ 32)) by lia.
      apply Z.mod_pow2_bits_high. lia.
Qed.

Lemma network_value (b0 b1 b2 b3 p : Z) :
  isByte b0 -> isByte b1 -> isByte b2 -> isByte b3 -> 0 <= p <= 32 ->
  let s := subnetOf [b0; b1; b2; b3] p in
  let A := bigEndian [b0; b1; b2; b3] in
  bigEndian (network s) = A - A mod 2 ^ (32 - p)
  /\ bigEndian (broadcast s) = bigEndian (network s) + 2 ^ (32 - p) - 1.
Proof.
  intros H0 H1 H2 H3 Hp. cbv zeta.
  destruct (subnetOf_fields b0 b1 b2 b3 p Hp)
    as (m0 & m1 & m2 & m3 & Hm & (Hm0 & Hm1 & Hm2 & Hm3) & Hs).
  cbv zeta in Hs. destruct Hs as (_ & _ & _ & Hn & Hbc).
  rewrite Hn, Hbc. split.
  - rewrite <- bigEndian4_land by assumption.
    rewrite <- Hm, CIDRMask_value by exact Hp.
    apply land_high_mask; [lia|].
    rewrite bigEndian4. unfold isByte in *. lia.
  - pose proof (wildcard_value p Hp) as Hw. rewrite Hm in Hw.
    cbn [map] in Hw. rewrite bigEndian4 in Hw.
    rewrite !not8_byte in Hw by assumption.
    destruct (broadcast_byte b0 m0 H0 Hm0) as (E0 & _).
    destruct (broadcast_byte b1 m1 H1 Hm1) as (E1 & _).
    destruct (broadcast_byte b2 m2 H2 Hm2) as (E2 & _).
    destruct (broadcast_byte b3 m3 H3 Hm3) as (E3 & _).
    rewrite E0, E1, E2, E3, !bigEndian4. lia.
Qed.

(** The two ends of the host range, for every prefix length. *)
Lemma host_values (b0 b1 b2 b3 p : Z) :
  isByte b0 -> isByte b1 -> isByte b2 -> isByte b3 -> 0 <= p <= 32 ->
  let s := subnetOf [b0; b1; b2; b3] p in
  bigEndian (hostmin s)
  = bigEndian (network s) + (if p <=? 30 then 1 else 0)
  /\ bigEndian (hostmax s)
     = if p =? 32 then bigEndian (network s)
       else bigEndian (broadcast s) - (if p <=? 30 then 1 else 0).
Proof.
  intros H0 H1 H2 H3 Hp. cbv zeta.
  destruct (subnetOf_fields b0 b1 b2 b3 p Hp)
    as (m0 & m1 & m2 & m3 & Hm & (Hm0 & Hm1 & Hm2 & Hm3) & Hs).
  cbv zeta in Hs. destruct Hs as (Hones & _ & _ & Hn & Hbc).
  unfold subnetOf in *.
  match goal with
  | |- context [calculate_subnet ?n] =>
      destruct (calculate_subnet_hosts n) as (Hmin & Hmax & _)
  end.
  cbv zeta in Hmin, Hmax. rewrite Hones in Hmin, Hmax. rewrite Hmin, Hmax.
  destruct (Z.eqb_spec p 32) as [->|H32].
  { change (32 <=? 30) with false. cbn [orb]. split; lia. }
  destruct (Z.eqb_spec p 31) as [->|H31].
  { change (31 <=? 30) with false. cbn [orb]. split; lia. }
  cbn [orb]. destruct (Z.leb_spec p 30); [|lia].
  rewrite Hn, Hbc.
  destruct (last_byte_masked p b3 m0 m1 m2 m3 ltac:(lia) Hm H3) as (Hle & _).
  destruct (hosts_last_byte (Z.land b0 m0) (Z.land b1 m1) (Z.land b2 m2) b3 m3
              (Z.lor (Z.land b0 m0) (not8 m0)) (Z.lor (Z.land b1 m1) (not8 m1))
              (Z.lor (Z.land b2 m2) (not8 m2)))
    as (Hinc & Hdec);
    auto using land_isByte, lor_isByte, not8_isByte.
  rewrite Hinc, Hdec, !bigEndian4. split; lia.
Qed.

Lemma totalHosts_value (p : Z) :
  0 <= p <= 32 ->
  calculateTotalHosts p = if p <=? 30 then 2 ^ (32 - p) - 2 else 33 - p.
Proof. revert p. by_prefix. Qed.

(** The six addresses of a subnet are four bytes each, and the four that
    lie in the block give the network back under the mask. *)
Lemma subnetOf_addresses (b0 b1 b2 b3 p : Z) :
  isByte b0 -> isByte b1 -> isByte b2 -> isByte b3 -> 0 <= p <= 32 ->
  let s := subnetOf [b0; b1; b2; b3] p in
  Forall (fun x => length x = 4%nat /\ Forall isByte x)
         [netmask s; wildcardIP s; network s; broadcast s; hostmin s; hostmax s]
  /\ Forall (fun x => zip_with Z.land x (CIDRMask p 32) = network s)
            [network s; broadcast s; hostmin s; hostmax s]
  /\ network s = zip_with Z.land [b0; b1; b2; b3] (CIDRMask p 32).
Proof.
  intros H0 H1 H2 H3 Hp. cbv zeta.
  destruct (subnetOf_fields b0 b1 b2 b3 p Hp)
    as (m0 & m1 & m2 & m3 & Hm & (Hm0 & Hm1 & Hm2 & Hm3) & Hs).
  cbv zeta in Hs. destruct Hs as (Hones & Hmask & Hw & Hn & Hbc).
  assert (Hmin : hostmin (subnetOf [b0; b1; b2; b3] p)
                 = if p <=? 30
                   then [Z.land b0 m0; Z.land b1 m1; Z.land b2 m2; Z.land b3 m3 + 1]
                   else network (subnetOf [b0; b1; b2; b3] p));
  [|assert (Hmax : hostmax (subnetOf [b0; b1; b2; b3] p)
                   = if p <=? 30
                     then [Z.lor (Z.land b0 m0) (not8 m0);
                           Z.lor (Z.land b1 m1) (not8 m1);
                           Z.lor (Z.land b2 m2) (not8 m2);
                           Z.lor (Z.land b3 m3) (not8 m3) - 1]
                     else if p =? 32 then network (subnetOf [b0; b1; b2; b3] p)
                     else broadcast (subnetOf [b0; b1; b2; b3] p))].
  - destruct (calculate_subnet_hosts
                (mkIPNet (zip_with Z.land [b0; b1; b2; b3] (CIDRMask p 32))
                         (CIDRMask p 32))) as (E & _).
    cbv zeta in E. fold (subnetOf [b0; b1; b2; b3] p) in E.
    rewrite Hones in E. rewrite E.
    destruct (Z.leb_spec p 30).
    + replace (p =? 32) with false by (symmetry; apply Z.eqb_neq; lia).
      replace (p =? 31) with false by (symmetry; apply Z.eqb_neq; lia).
      cbn [orb]. rewrite Hn.
      destruct (last_byte_masked p b3 m0 m1 m2 m3 ltac:(lia) Hm H3) as (Hle & _).
      apply (hosts_last_byte _ _ _ b3 m3 0 0 0);
        auto using land_isByte; unfold isByte; lia.
    + assert (p = 31 \/ p = 32) as [->| ->] by lia; reflexivity.
  - destruct (calculate_subnet_hosts
                (mkIPNet (zip_with Z.land [b0; b1; b2; b3] (CIDRMask p 32))
                         (CIDRMask p 32))) as (_ & E & _).
    cbv zeta in E. fold (subnetOf [b0; b1; b2; b3] p) in E.
    rewrite Hones in E. rewrite E.
    destruct (Z.leb_spec p 30).
    + replace (p =? 32) with false by (symmetry; apply Z.eqb_neq; lia).
      replace (p =? 31) with false by (symmetry; apply Z.eqb_neq; lia).
      rewrite Hbc.
      destruct (last_byte_masked p b3 m0 m1 m2 m3 ltac:(lia) Hm H3) as (Hle & _).
      apply (hosts_last_byte 0 0 0 b3 m3);
        auto using land_isByte, lor_isByte, not8_isByte; unfold isByte; lia.
    + assert (p = 31 \/ p = 32) as [->| ->] by lia; reflexivity.
  - assert (Hn3 : isByte (Z.land b3 m3 + 1) /\ isByte (Z.lor (Z.land b3 m3) (not8 m3) - 1)
                  \/ 30 < p).
    { destruct (Z.leb_spec p 30); [left|right; lia].
      destruct (last_byte_masked p b3 m0 m1 m2 m3 ltac:(lia) Hm H3) as (Hle & _).
      destruct (broadcast_byte b3 m3 H3 Hm3) as (E3 & R3).
      rewrite E3. unfold isByte in *. lia. }
    rewrite Hmin, Hmax, Hmask, Hw, Hn, Hbc, Hm.
    assert (Hnet : Forall isByte
                     [Z.land b0 m0; Z.land b1 m1; Z.land b2 m2; Z.land b3 m3])
      by (repeat (apply Forall_cons_2; [apply land_isByte; assumption|]);
          constructor).
    assert (Hbro : Forall isByte
                     [Z.lor (Z.land b0 m0) (not8 m0); Z.lor (Z.land b1 m1) (not8 m1);
                      Z.lor (Z.land b2 m2) (not8 m2); Z.lor (Z.land b3 m3) (not8 m3)])
      by (repeat (apply Forall_cons_2;
                  [apply lor_isByte;
                   [apply land_isByte|apply not8_isByte]; assumption|]);
          constructor).
    split; [|split; [|reflexivity]].
    + repeat (apply Forall_cons_2; [|]); try apply Forall_nil_2.
      * split; [reflexivity|].
        repeat (apply Forall_cons_2; [assumption|]). constructor.
      * split; [reflexivity|].
        repeat (apply Forall_cons_2; [apply not8_isByte; assumption|]).
        constructor.
      * split; [reflexivity|exact Hnet].
      * split; [reflexivity|exact Hbro].
      * destruct (p <=? 30) eqn:E; [|split; [reflexivity|exact Hnet]].
        split; [reflexivity|]. apply Z.leb_le in E.
        destruct Hn3 as [[Hx _]|]; [|lia].
        repeat (apply Forall_cons_2; [apply land_isByte; assumption|]).
        apply Forall_cons_2; [exact Hx|constructor].
      * destruct (p <=? 30) eqn:E;
          [|destruct (p =? 32); split; (reflexivity || assumption)].
        split; [reflexivity|]. apply Z.leb_le in E.
        destruct Hn3 as [[_ Hx]|]; [|lia].
        repeat (apply Forall_cons_2;
                [apply lor_isByte;
                 [apply land_isByte|apply not8_isByte]; assumption|]).
        apply Forall_cons_2; [exact Hx|constructor].
    + assert (Mn : zip_with Z.land
                     [Z.land b0 m0; Z.land b1 m1; Z.land b2 m2; Z.land b3 m3]
                     [m0; m1; m2; m3]
                   = [Z.land b0 m0; Z.land b1 m1; Z.land b2 m2; Z.land b3 m3])
        by (cbn [zip_with]; rewrite !land_mask_idem; reflexivity).
      assert (Mb : zip_with Z.land
                     [Z.lor (Z.land b0 m0) (not8 m0); Z.lor (Z.land b1 m1) (not8 m1);
                      Z.lor (Z.land b2 m2) (not8 m2); Z.lor (Z.land b3 m3) (not8 m3)]
                     [m0; m1; m2; m3]
                   = [Z.land b0 m0; Z.land b1 m1; Z.land b2 m2; Z.land b3 m3])
        by (cbn [zip_with]; rewrite !land_lor_not8 by assumption; reflexivity).
      repeat (apply Forall_cons_2; [|]); try apply Forall_nil_2.
      * exact Mn.
      * exact Mb.
      * destruct (p <=? 30) eqn:E; [|exact Mn]. apply Z.leb_le in E.
        destruct (last_byte_masked p b3 m0 m1 m2 m3 ltac:(lia) Hm H3)
          as (_ & Hlow & _).
        cbn [zip_with]. rewrite !land_mask_idem, Hlow. reflexivity.
      * destruct (p <=? 30) eqn:E; [|destruct (p =? 32); assumption].
        apply Z.leb_le in E.
        destruct (last_byte_masked p b3 m0 m1 m2 m3 ltac:(lia) Hm H3)
          as (_ & _ & Hhigh).
        cbn [zip_with]. rewrite !land_lor_not8, Hhigh by assumption.
        reflexivity.
Qed.

(** X5. On valid input the subnet is the aligned block of 2^(32-p)
    addresses that holds the address given: the netmask is the [p] high
    bits and the wildcard the [32-p] low bits, the network is the address
    with its low bits cleared, the broadcast is the last address of the
    block, and the address lies between the two. *)
Theorem subnet_block (ipStr bitmaskStr : string) (b : list Z) (p : Z) :
  ValidInput ipStr bitmaskStr b p ->
  let s := subnetOf b p in
  let A := bigEndian b in
  calculate ipStr bitmaskStr = Ok (calculate_items ipStr s)
  /\ bigEndian (netmask s) = 2 ^ 32 - 2 ^ (32 - p)
  /\ bigEndian (wildcardIP s) = 2 ^ (32 - p) - 1
  /\ bigEndian (network s) = A - A mod 2 ^ (32 - p)
  /\ bigEndian (network s) mod 2 ^ (32 - p) = 0
  /\ bigEndian (broadcast s) = bigEndian (network s) + 2 ^ (32 - p) - 1
  /\ bigEndian (network s) <= A <= bigEndian (broadcast s).
Proof.
  intros Hv. cbv zeta. split; [apply valid_calculate, Hv|].
  destruct (valid_bytes _ _ _ _ Hv)
    as (Hp & b0 & b1 & b2 & b3 & -> & H0 & H1 & H2 & H3).
  destruct (network_value b0 b1 b2 b3 p H0 H1 H2 H3 Hp) as (Hn & Hb).
  cbv zeta in Hn, Hb.
  destruct (subnetOf_fields b0 b1 b2 b3 p Hp)
    as (m0 & m1 & m2 & m3 & Hm & _ & Hs).
  cbv zeta in Hs. destruct Hs as (_ & Hmask & Hw & _).
  assert (Hk : 0 < 2 ^ (32 - p)) by (apply Z.pow_pos_nonneg; lia).
  pose proof (Z.mod_pos_bound (bigEndian [b0; b1; b2; b3]) _ Hk) as Hr.
  pose proof (Z.div_mod (bigEndian [b0; b1; b2; b3]) (2 ^ (32 - p))
                ltac:(lia)) as Hdm.
  split; [rewrite Hmask, <- Hm; apply CIDRMask_value, Hp|].
  split.
  { rewrite Hw. pose proof (wildcard_value p Hp) as Hwv.
    rewrite Hm in Hwv. exact Hwv. }
  split; [exact Hn|]. split; [|split; [exact Hb|rewrite Hb, Hn; lia]].
  rewrite Hn.
  replace (bigEndian [b0; b1; b2; b3] - bigEndian [b0; b1; b2; b3] mod 2 ^ (32 - p))
    with (bigEndian [b0; b1; b2; b3] / 2 ^ (32 - p) * 2 ^ (32 - p)) by lia.
  apply Z.mod_mul. lia.
Qed.

Lemma subnet_block_witness :
  calculate "10.0.0.5" "30"
  = Ok (calculate_items "10.0.0.5" (subnetOf [10; 0; 0; 5] 30))
  /\ bigEndian (network (subnetOf [10; 0; 0; 5] 30)) = 167772164
  /\ bigEndian (broadcast (subnetOf [10; 0; 0; 5] 30)) = 167772167.
Proof.
  assert (Hv : ValidInput "10.0.0.5" "30" [10; 0; 0; 5] 30).
  { split; [reflexivity|]. split; [reflexivity|]. lia. }
  destruct (subnet_block "10.0.0.5" "30" [10; 0; 0; 5] 30 Hv)
    as (Hc & _ & _ & Hn & _ & Hb & _).
  split; [exact Hc|]. split; [rewrite Hn; reflexivity|].
  rewrite Hb, Hn. reflexivity.
Defined.

(** X6. On valid input the Hosts count is the size of the host range,
    hostmax - hostmin + 1, for every prefix length, 31 and 32 included; it
    is at least 1, and the range lies within the block. *)
Theorem hosts_count_is_range_size (ipStr bitmaskStr : string) (b : list Z) (p : Z) :
  ValidInput ipStr bitmaskStr b p ->
  let s := subnetOf b p in
  calculate ipStr bitmaskStr = Ok (calculate_items ipStr s)
  /\ totalHosts s = bigEndian (hostmax s) - bigEndian (hostmin s) + 1
  /\ 1 <= totalHosts s
  /\ bigEndian (network s) <= bigEndian (hostmin s)
  /\ bigEndian (hostmin s) <= bigEndian (hostmax s)
  /\ bigEndian (hostmax s) <= bigEndian (broadcast s).
Proof.
  intros Hv. cbv zeta. split; [apply valid_calculate, Hv|].
  destruct (valid_bytes _ _ _ _ Hv)
    as (Hp & b0 & b1 & b2 & b3 & -> & H0 & H1 & H2 & H3).
  destruct (network_value b0 b1 b2 b3 p H0 H1 H2 H3 Hp) as (_ & Hb).
  destruct (host_values b0 b1 b2 b3 p H0 H1 H2 H3 Hp) as (Hmin & Hmax).
  cbv zeta in Hb, Hmin, Hmax.
  destruct (subnetOf_fields b0 b1 b2 b3 p Hp)
    as (m0 & m1 & m2 & m3 & _ & _ & Hs).
  cbv zeta in Hs. destruct Hs as (Hones & _).
  assert (Ht : totalHosts (subnetOf [b0; b1; b2; b3] p) = calculateTotalHosts p).
  { unfold subnetOf in *.
    match goal with
    | |- context [calculate_subnet ?n] =>
        destruct (calculate_subnet_hosts n) as (_ & _ & E)
    end.
    cbv zeta in E. rewrite E, Hones. reflexivity. }
  rewrite Ht, (totalHosts_value p Hp), Hmin, Hmax, Hb.
  destruct (Z.eqb_spec p 32) as [->|H32].
  { change (32 <=? 30) with false. change (2 ^ (32 - 32)) with 1. lia. }
  destruct (Z.leb_spec p 30).
  - assert (2 ^ 2 <= 2 ^ (32 - p)) by (apply Z.pow_le_mono_r; lia). lia.
  - replace p with 31 by lia. change (2 ^ (32 - 31)) with 2. lia.
Qed.

Lemma hosts_count_is_range_size_witness :
  totalHosts (subnetOf [192; 168; 1; 5] 31)
  = bigEndian (hostmax (subnetOf [192; 168; 1; 5] 31))
    - bigEndian (hostmin (subnetOf [192; 168; 1; 5] 31)) + 1.
Proof.
  assert (Hv : ValidInput "192.168.1.5" "31" [192; 168; 1; 5] 31).
  { split; [reflexivity|]. split; [reflexivity|]. lia. }
  destruct (hosts_count_is_range_size "192.168.1.5" "31" [192; 168; 1; 5] 31 Hv)
    as (_ & H & _).
  exact H.
Defined.

(** X7. The two ends of the prefix range.  At 32 the network, the
    broadcast and both hosts are the address given, unchanged, and there is
    one host; at 0 the network is 0.0.0.0 and the broadcast
    255.255.255.255 whatever the address, with 4294967294 hosts from
    0.0.0.1 to 255.255.255.254. *)
Theorem prefix_boundaries (ipStr bitmaskStr : string) (b : list Z) (p : Z) :
  ValidInput ipStr bitmaskStr b p ->
  let s := subnetOf b p in
  calculate ipStr bitmaskStr = Ok (calculate_items ipStr s)
  /\ (p = 32 ->
      network s = b /\ broadcast s = b /\ hostmin s = b /\ hostmax s = b
      /\ totalHosts s = 1)
  /\ (p = 0 ->
      network s = [0; 0; 0; 0] /\ broadcast s = [255; 255; 255; 255]
      /\ hostmin s = [0; 0; 0; 1] /\ hostmax s = [255; 255; 255; 254]
      /\ totalHosts s = 4294967294).
Proof.
  intros Hv. cbv zeta. split; [apply valid_calculate, Hv|].
  destruct (valid_bytes _ _ _ _ Hv)
    as (Hp & b0 & b1 & b2 & b3 & -> & H0 & H1 & H2 & H3).
  assert (H255 : forall x, isByte x -> Z.land x 255 = x).
  { intros x Hx. change 255 with (Z.ones 8). rewrite Z.land_ones by lia.
    apply Z.mod_small. exact Hx. }
  split; intros ->; unfold subnetOf; change (CIDRMask 32 32) with [255; 255; 255; 255];
    change (CIDRMask 0 32) with [0; 0; 0; 0]; cbn [zip_with];
    rewrite ?H255, ?Z.land_0_r by assumption.
  - unfold calculate_subnet. cbn [IPNet_Mask IPNet_IP].
    change (fst (Size [255; 255; 255; 255])) with 32.
    cbn [Z.eqb Pos.eqb]. cbn [ones netmask network broadcast hostmin hostmax totalHosts].
    change (To4 [b0; b1; b2; b3]) with [b0; b1; b2; b3].
    assert (Hbc : broadcast_loop 4 0 [255; 255; 255; 255] [b0; b1; b2; b3]
                  = [b0; b1; b2; b3]).
    { cbn. change (not8 255) with 0. rewrite !Z.lor_0_r. reflexivity. }
    rewrite Hbc. repeat split; reflexivity.
  - unfold calculate_subnet. cbn [IPNet_Mask IPNet_IP].
    repeat split; vm_compute; reflexivity.
Qed.

Lemma prefix_boundaries_witness :
  network (subnetOf [192; 168; 1; 5] 32) = [192; 168; 1; 5]
  /\ broadcast (subnetOf [192; 168; 1; 5] 0) = [255; 255; 255; 255].
Proof.
  assert (Hv32 : ValidInput "192.168.1.5" "32" [192; 168; 1; 5] 32).
  { split; [reflexivity|]. split; [reflexivity|]. lia. }
  assert (Hv0 : ValidInput "192.168.1.5" "0" [192; 168; 1; 5] 0).
  { split; [reflexivity|]. split; [reflexivity|]. lia. }
  destruct (prefix_boundaries "192.168.1.5" "32" [192; 168; 1; 5] 32 Hv32)
    as (_ & H32 & _).
  destruct (prefix_boundaries "192.168.1.5" "0" [192; 168; 1; 5] 0 Hv0)
    as (_ & _ & H0).
  destruct (H32 eq_refl) as (Hn & _). destruct (H0 eq_refl) as (_ & Hb & _).
  auto.
Defined.

(** X8. On valid input the six addresses of the result are written in
    dotted decimal, and each text reads back, through the parser the
    program uses, as the four bytes it was written from. *)
Theorem addresses_read_back (ipStr bitmaskStr : string) (b : list Z) (p : Z) :
  ValidInput ipStr bitmaskStr b p ->
  let s := subnetOf b p in
  calculate ipStr bitmaskStr = Ok (calculate_items ipStr s)
  /\ Forall (fun x => length x = 4%nat /\ Forall isByte x
                      /\ IP_String x = string4 x
                      /\ ParseAddr (IP_String x) = Some (Addr4 x))
            [netmask s; wildcardIP s; network s; broadcast s;
             hostmin s; hostmax s].
Proof.
  intros Hv. cbv zeta. split; [apply valid_calculate, Hv|].
  destruct (valid_bytes _ _ _ _ Hv)
    as (Hp & b0 & b1 & b2 & b3 & -> & H0 & H1 & H2 & H3).
  destruct (subnetOf_addresses b0 b1 b2 b3 p H0 H1 H2 H3 Hp) as (Hall & _).
  cbv zeta in Hall. eapply Forall_impl; [exact Hall|].
  intros x (Hlen & Hb). list4 x Hlen. apply Forall4 in Hb as (? & ? & ? & ?).
  split; [reflexivity|]. split.
  - repeat (apply Forall_cons_2; [assumption|]). constructor.
  - split; [reflexivity|]. apply ParseAddr_IP_String; assumption.
Qed.

Lemma addresses_read_back_witness :
  ParseAddr (IP_String (hostmax (subnetOf [10; 0; 0; 5] 30)))
  = Some (Addr4 (hostmax (subnetOf [10; 0; 0; 5] 30))).
Proof.
  assert (Hv : ValidInput "10.0.0.5" "30" [10; 0; 0; 5] 30).
  { split; [reflexivity|]. split; [reflexivity|]. lia. }
  destruct (addresses_read_back "10.0.0.5" "30" [10; 0; 0; 5] 30 Hv) as (_ & H).
  do 5 apply Forall_cons in H as [_ H].
  apply Forall_cons in H as [(_ & _ & _ & H) _]. exact H.
Defined.

(** X9. On valid input, the network, the broadcast, the first host and the
    last host, each written as text and given back to [calculate] with the
    same prefix text, give the same subnet: the items differ by the Address
    item alone. *)
Theorem calculate_feed_back (ipStr bitmaskStr : string) (b : list Z) (p : Z) :
  ValidInput ipStr bitmaskStr b p ->
  let s := subnetOf b p in
  calculate ipStr bitmaskStr = Ok (calculate_items ipStr s)
  /\ Forall (fun x => calculate (IP_String x) bitmaskStr
                      = Ok (calculate_items (IP_String x) s))
            [network s; broadcast s; hostmin s; hostmax s].
Proof.
  intros Hv. cbv zeta. split; [apply valid_calculate, Hv|].
  destruct (valid_bytes _ _ _ _ Hv)
    as (Hp & b0 & b1 & b2 & b3 & -> & H0 & H1 & H2 & H3).
  destruct Hv as (_ & Hatoi & _).
  destruct (subnetOf_addresses b0 b1 b2 b3 p H0 H1 H2 H3 Hp)
    as (Hall & Hmasked & Hnet).
  cbv zeta in Hall, Hmasked, Hnet.
  do 2 apply Forall_cons in Hall as [_ Hall].
  assert (Hboth : Forall (fun x => (length x = 4%nat /\ Forall isByte x)
                                   /\ zip_with Z.land x (CIDRMask p 32)
                                      = network (subnetOf [b0; b1; b2; b3] p))
                         [network (subnetOf [b0; b1; b2; b3] p);
                          broadcast (subnetOf [b0; b1; b2; b3] p);
                          hostmin (subnetOf [b0; b1; b2; b3] p);
                          hostmax (subnetOf [b0; b1; b2; b3] p)]).
  { apply Forall_and. split; assumption. }
  eapply Forall_impl; [exact Hboth|].
  intros x ((Hlen & Hb) & Hx). list4 x Hlen.
  apply Forall4 in Hb as (? & ? & ? & ?).
  rewrite (valid_calculate _ bitmaskStr [x0; x1; x2; x3] p).
  - unfold subnetOf at 1. rewrite Hx, Hnet. reflexivity.
  - split; [apply ParseAddr_IP_String; assumption|]. split; [exact Hatoi|exact Hp].
Qed.

Lemma calculate_feed_back_witness :
  calculate "10.0.0.4" "30"
  = Ok (calculate_items "10.0.0.4" (subnetOf [10; 0; 0; 5] 30)).
Proof.
  assert (Hv : ValidInput "10.0.0.5" "30" [10; 0; 0; 5] 30).
  { split; [reflexivity|]. split; [reflexivity|]. lia. }
  destruct (calculate_feed_back "10.0.0.5" "30" [10; 0; 0; 5] 30 Hv) as (_ & H).
  apply Forall_cons in H as [H _]. exact H.
Defined.



Lemma bigEndian4_inj (a b c d a' b' c' d' : Z) :
  isByte a -> isByte b -> isByte c -> isByte d ->
  isByte a' -> isByte b' -> isByte c' -> isByte d' ->
  bigEndian [a; b; c; d] = bigEndian [a'; b'; c'; d'] ->
  [a; b; c; d] = [a'; b'; c'; d'].
Proof.
  unfold isByte. rewrite !bigEndian4. intros.
  assert (a = a') by lia. assert (b = b') by lia. assert (c = c') by lia.
  assert (d = d') by lia. subst. reflexivity.
Qed.

(** X11. The subnet depends on the address through its [p] high bits
    alone: under the same prefix length two addresses give the same subnet
    exactly when they agree on those bits. *)
Theorem same_block_same_subnet (ipStr ipStr' bitmaskStr : string)
    (b b' : list Z) (p : Z) :
  ValidInput ipStr bitmaskStr b p ->
  ValidInput ipStr' bitmaskStr b' p ->
  (subnetOf b p = subnetOf b' p
   <-> bigEndian b / 2 ^ (32 - p) = bigEndian b' / 2 ^ (32 - p)).
Proof.
  intros Hv Hv'.
  destruct (valid_bytes _ _ _ _ Hv)
    as (Hp & b0 & b1 & b2 & b3 & -> & H0 & H1 & H2 & H3).
  destruct (valid_bytes _ _ _ _ Hv')
    as (_ & c0 & c1 & c2 & c3 & -> & G0 & G1 & G2 & G3).
  destruct (network_value b0 b1 b2 b3 p H0 H1 H2 H3 Hp) as (Hn & _).
  destruct (network_value c0 c1 c2 c3 p G0 G1 G2 G3 Hp) as (Hn' & _).
  cbv zeta in Hn, Hn'.
  assert (Hk : 0 < 2 ^ (32 - p)) by (apply Z.pow_pos_nonneg; lia).
  pose proof (Z.div_mod (bigEndian [b0; b1; b2; b3]) (2 ^ (32 - p))
                ltac:(lia)) as D.
  pose proof (Z.div_mod (bigEndian [c0; c1; c2; c3]) (2 ^ (32 - p))
                ltac:(lia)) as D'.
  split.
  - intros E. rewrite E in Hn. rewrite Hn' in Hn. nia.
  - intros E.
    destruct (subnetOf_addresses b0 b1 b2 b3 p H0 H1 H2 H3 Hp) as (Hall & _ & Hz).
    destruct (subnetOf_addresses c0 c1 c2 c3 p G0 G1 G2 G3 Hp) as (Hall' & _ & Hz').
    cbv zeta in Hall, Hall', Hz, Hz'.
    do 2 apply Forall_cons in Hall as [_ Hall].
    apply Forall_cons in Hall as [(Hlen & Hb) _].
    do 2 apply Forall_cons in Hall' as [_ Hall'].
    apply Forall_cons in Hall' as [(Hlen' & Hb') _].
    assert (Hnet : network (subnetOf [b0; b1; b2; b3] p)
                   = network (subnetOf [c0; c1; c2; c3] p)).
    { destruct (network (subnetOf [b0; b1; b2; b3] p))
        as [|x0 [|x1 [|x2 [|x3 [|? ?]]]]]; try discriminate Hlen.
      destruct (network (subnetOf [c0; c1; c2; c3] p))
        as [|y0 [|y1 [|y2 [|y3 [|? ?]]]]]; try discriminate Hlen'.
      apply Forall4 in Hb as (? & ? & ? & ?).
      apply Forall4 in Hb' as (? & ? & ? & ?).
      apply bigEndian4_inj; try assumption. rewrite Hn, Hn'.
      rewrite E in D. nia. }
    unfold subnetOf. rewrite <- Hz, <- Hz', Hnet. reflexivity.
Qed.

Lemma same_block_same_subnet_witness :
  subnetOf [10; 0; 0; 5] 30 = subnetOf [10; 0; 0; 6] 30.
Proof.
  assert (Hv : ValidInput "10.0.0.5" "30" [10; 0; 0; 5] 30).
  { split; [reflexivity|]. split; [reflexivity|]. lia. }
  assert (Hv' : ValidInput "10.0.0.6" "30" [10; 0; 0; 6] 30).
  { split; [reflexivity|]. split; [reflexivity|]. lia. }
  apply (same_block_same_subnet "10.0.0.5" "10.0.0.6" "30" _ _ 30 Hv Hv').
  reflexivity.
Defined.

(** X12. Blocks nest: for one address, a longer prefix gives a block that
    lies within the block of a shorter one. *)
Theorem longer_prefix_nested_block (ipStr bitmaskStr bitmaskStr' : string)
    (b : list Z) (p q : Z) :
  ValidInput ipStr bitmaskStr b p ->
  ValidInput ipStr bitmaskStr' b q ->
  p <= q ->
  bigEndian (network (subnetOf b p)) <= bigEndian (network (subnetOf b q))
  /\ bigEndian (broadcast (subnetOf b q)) <= bigEndian (broadcast (subnetOf b p)).
Proof.
  intros Hv Hv' Hpq.
  destruct (valid_bytes _ _ _ _ Hv)
    as (Hp & b0 & b1 & b2 & b3 & -> & H0 & H1 & H2 & H3).
  destruct Hv' as (_ & _ & Hq).
  destruct (network_value b0 b1 b2 b3 p H0 H1 H2 H3 Hp) as (Hn & Hb).
  destruct (network_value b0 b1 b2 b3 q H0 H1 H2 H3 Hq) as (Hn' & Hb').
  cbv zeta in Hn, Hb, Hn', Hb'. rewrite Hb, Hb', Hn, Hn'.
  set (A := bigEndian [b0; b1; b2; b3]).
  assert (HA : 0 <= A) by (unfold A; rewrite bigEndian4; unfold isByte in *; lia).
  assert (Hsplit : 2 ^ (32 - p) = 2 ^ (q - p) * 2 ^ (32 - q)).
  { rewrite <- Z.pow_add_r by lia. f_equal. lia. }
  assert (Hkq : 0 < 2 ^ (32 - q)) by (apply Z.pow_pos_nonneg; lia).
  assert (Hd : 0 < 2 ^ (q - p)) by (apply Z.pow_pos_nonneg; lia).
  pose proof (Z.mod_pos_bound A (2 ^ (32 - q)) Hkq) as Rq.
  pose proof (Z.mod_pos_bound A (2 ^ (32 - p)) ltac:(lia)) as Rp.
  assert (Hmm : (A mod 2 ^ (32 - p)) mod 2 ^ (32 - q) = A mod 2 ^ (32 - q)).
  { pose proof (Z.div_mod A (2 ^ (32 - p)) ltac:(lia)) as DA.
    replace (A mod 2 ^ (32 - p))
      with (A + (- (2 ^ (q - p) * (A / 2 ^ (32 - p)))) * 2 ^ (32 - q)) by nia.
    apply Z.mod_add. lia. }
  pose proof (Z.div_mod (A mod 2 ^ (32 - p)) (2 ^ (32 - q)) ltac:(lia)) as D.
  rewrite Hmm in D.
  assert (Hquot : 0 <= (A mod 2 ^ (32 - p)) / 2 ^ (32 - q) < 2 ^ (q - p)).
  { split; [apply Z.div_pos; lia|].
    apply Z.div_lt_upper_bound; [lia|]. rewrite Z.mul_comm, <- Hsplit. lia. }
  split; nia.
Qed.

Lemma longer_prefix_nested_block_witness :
  bigEndian (network (subnetOf [10; 1; 2; 3] 8))
  <= bigEndian (network (subnetOf [10; 1; 2; 3] 24)).
Proof.
  assert (Hv : ValidInput "10.1.2.3" "8" [10; 1; 2; 3] 8).
  { split; [reflexivity|]. split; [reflexivity|]. lia. }
  assert (Hv' : ValidInput "10.1.2.3" "24" [10; 1; 2; 3] 24).
  { split; [reflexivity|]. split; [reflexivity|]. lia. }
  apply (longer_prefix_nested_block "10.1.2.3" "8" "24" _ 8 24 Hv Hv'). lia.
Defined.

(** X13. [calculate] succeeds exactly on valid input: an address text that
    is an IPv4 address and a prefix text that is an integer from 0 to 32.
    The items are then those of the subnet of the address bytes. *)
Theorem calculate_ok_iff (ipStr bitmaskStr : string) (items : list ResultItem) :
  calculate ipStr bitmaskStr = Ok items
  <-> exists b p, ValidInput ipStr bitmaskStr b p
                  /\ items = calculate_items ipStr (subnetOf b p).
Proof.
  split.
  - rewrite calculate_outcome.
    destruct (Atoi bitmaskStr) as [p|] eqn:Hn; [|discriminate].
    destruct ((p <? 0) || (32 <? p)) eqn:Hr; [discriminate|].
    apply orb_false_elim in Hr as [Hlo Hhi]. apply Z.ltb_ge in Hlo, Hhi.
    destruct (ParseAddr ipStr) as [[b|b [|z0 z]]|] eqn:Ha; try discriminate.
    intros H. injection H as <-. exists b, p.
    split; [|reflexivity]. split; [exact Ha|]. split; [exact Hn|lia].
  - intros (b & p & Hv & ->). apply valid_calculate, Hv.
Qed.

Lemma calculate_ok_iff_witness :
  exists b p, ValidInput "10.0.0.5" "30" b p
              /\ calculate "10.0.0.5" "30"
                 = Ok (calculate_items "10.0.0.5" (subnetOf b p)).
Proof.
  destruct (proj1 (calculate_ok_iff "10.0.0.5" "30"
                     (calculate_items "10.0.0.5" (subnetOf [10; 0; 0; 5] 30)))
                  eq_refl) as (b & p & Hv & Hitems).
  exists b, p. split; [exact Hv|].
  apply (proj2 (calculate_ok_iff "10.0.0.5" "30" _)).
  exists b, p. split; [exact Hv|reflexivity].
Defined.
